(** * SmartNotes storage engine: a model of [app/database.py]

    The [Database] class keeps folders, notes, tags and note-tag links
    in SQLite tables, mirrors note titles and bodies into an FTS5 index
    through three triggers, and answers searches with one composed
    SELECT.  The tables are modelled as lists of rows in rowid order,
    every method as a function from a store to a store and an outcome,
    and each SQL statement by what it does to the rows: UNIQUE and
    foreign-key checks, ON DELETE actions, triggers, GROUP BY / HAVING,
    ORDER BY and LIMIT.

    Strings are sequences of characters with codes below 256.  Row
    identifiers are unbounded integers (the 64-bit ceiling of rowids and
    the engine's limit on bound parameters are not modelled).  The
    clock reading [int(time.time())] is an argument of the methods that
    take it.  The FTS5 matcher is an argument of [search_notes]. *)

From Stdlib Require Import ZArith List String Ascii Bool Lia Permutation Sorted.
Import ListNotations.
Local Open Scope Z_scope.

(** ** Strings *)

Definition dquote : ascii := "034"%char.
Definition space : ascii := " "%char.
Definition star : ascii := "*"%char.

(** Python's [str.isspace] on a single character with code below 256. *)
Definition is_space (c : ascii) : bool :=
  let n := nat_of_ascii c in
  ((9 <=? n) && (n <=? 13) || (28 <=? n) && (n <=? 32)
   || (n =? 133) || (n =? 160))%nat.

Definition is_empty (s : string) : bool :=
  match s with EmptyString => true | String _ _ => false end.

Fixpoint lstrip (s : string) : string :=
  match s with
  | EmptyString => EmptyString
  | String c r => if is_space c then lstrip r else s
  end.

Fixpoint rstrip (s : string) : string :=
  match s with
  | EmptyString => EmptyString
  | String c r =>
      let r' := rstrip r in
      if is_space c && is_empty r' then EmptyString else String c r'
  end.

(** [s.strip()] *)
Definition strip (s : string) : string := rstrip (lstrip s).

(** [query.replace]: every double-quote character (code 34) is doubled. *)
Fixpoint replace_quotes (s : string) : string :=
  match s with
  | EmptyString => EmptyString
  | String c r =>
      if Ascii.eqb c dquote
      then String dquote (String dquote (replace_quotes r))
      else String c (replace_quotes r)
  end.

(** The test that a string contains a blank (code 32). *)
Fixpoint has_space (s : string) : bool :=
  match s with
  | EmptyString => false
  | String c r => Ascii.eqb c space || has_space r
  end.

(** SQLite's NOCASE collation folds the 26 upper-case ASCII letters and
    then compares bytes. *)
Definition to_lower (c : ascii) : ascii :=
  let n := nat_of_ascii c in
  if ((65 <=? n) && (n <=? 90))%nat then ascii_of_nat (n + 32) else c.

Fixpoint nocase (s : string) : string :=
  match s with
  | EmptyString => EmptyString
  | String c r => String (to_lower c) (nocase r)
  end.

Definition nocase_leb (a b : string) : bool :=
  String.leb (nocase a) (nocase b).

(** ** ORDER BY: a stable insertion sort over rows in table order *)

Section OrderBy.
Context {A : Type} (le : A -> A -> bool).

Fixpoint insert_by (x : A) (l : list A) : list A :=
  match l with
  | [] => [x]
  | y :: r => if le x y then x :: l else y :: insert_by x r
  end.

Definition sort_by (l : list A) : list A := fold_right insert_by [] l.
End OrderBy.

(** ** Rows *)

Module Folder.
Record t := mk { id : Z; name : string }.
End Folder.

Module Note.
Record t := mk {
  id : Z;
  folder_id : option Z;
  title : string;
  content : string;
  created_at : Z;
  updated_at : Z
}.
End Note.

Module Tag.
Record t := mk { id : Z; name : string }.
End Tag.

Module NoteTag.
Record t := mk { note_id : Z; tag_id : Z }.
End NoteTag.

(** One entry of the [notes_fts] index. *)
Module Fts.
Record t := mk { rowid : Z; title : string; content : string }.

Definition eqb (a b : t) : bool :=
  (rowid a =? rowid b) && String.eqb (title a) (title b)
  && String.eqb (content a) (content b).
End Fts.

(** A row of [all_tags]. *)
Module TagUsage.
Record t := mk { id : Z; name : string; usage_count : Z }.
End TagUsage.

(** A result of [search_notes]. *)
Module NoteSummary.
Record t := mk {
  id : Z;
  title : string;
  content : string;
  folder_id : option Z;
  updated_at : Z;
  tags : list Tag.t
}.
End NoteSummary.

(** The store: the four tables, the index, and the AUTOINCREMENT
    counters (the largest rowid each table has ever handed out). *)
Record Database := mkDatabase {
  folders : list Folder.t;
  notes : list Note.t;
  tags : list Tag.t;
  note_tags : list NoteTag.t;
  notes_fts : list Fts.t;
  seq_folders : Z;
  seq_notes : Z;
  seq_tags : Z
}.

Definition empty_db : Database := mkDatabase [] [] [] [] [] 0 0 0.

Inductive exn := IntegrityError | OperationalError.

Inductive outcome (A : Type) :=
| Ok (a : A)
| Raise (e : exn).
Arguments Ok {A} a.
Arguments Raise {A} e.

(** ** Field updates *)

Definition set_folders (v : list Folder.t) (d : Database) : Database :=
  mkDatabase v (notes d) (tags d) (note_tags d) (notes_fts d)
             (seq_folders d) (seq_notes d) (seq_tags d).

Definition set_notes (v : list Note.t) (d : Database) : Database :=
  mkDatabase (folders d) v (tags d) (note_tags d) (notes_fts d)
             (seq_folders d) (seq_notes d) (seq_tags d).

Definition set_tags (v : list Tag.t) (d : Database) : Database :=
  mkDatabase (folders d) (notes d) v (note_tags d) (notes_fts d)
             (seq_folders d) (seq_notes d) (seq_tags d).

Definition set_note_tags_table (v : list NoteTag.t) (d : Database) : Database :=
  mkDatabase (folders d) (notes d) (tags d) v (notes_fts d)
             (seq_folders d) (seq_notes d) (seq_tags d).

Definition set_notes_fts (v : list Fts.t) (d : Database) : Database :=
  mkDatabase (folders d) (notes d) (tags d) (note_tags d) v
             (seq_folders d) (seq_notes d) (seq_tags d).

Definition set_seq_folders (v : Z) (d : Database) : Database :=
  mkDatabase (folders d) (notes d) (tags d) (note_tags d) (notes_fts d)
             v (seq_notes d) (seq_tags d).

Definition set_seq_notes (v : Z) (d : Database) : Database :=
  mkDatabase (folders d) (notes d) (tags d) (note_tags d) (notes_fts d)
             (seq_folders d) v (seq_tags d).

Definition set_seq_tags (v : Z) (d : Database) : Database :=
  mkDatabase (folders d) (notes d) (tags d) (note_tags d) (notes_fts d)
             (seq_folders d) (seq_notes d) v.

(** ** The triggers of [_init_schema] *)

Definition fts_entry (n : Note.t) : Fts.t :=
  Fts.mk (Note.id n) (Note.title n) (Note.content n).

(** [INSERT INTO notes_fts(rowid, title, content) VALUES (...)] *)
Definition fts_insert (e : Fts.t) (ix : list Fts.t) : list Fts.t := ix ++ [e].

(** [INSERT INTO notes_fts(notes_fts, rowid, title, content)
     VALUES('delete', ...)]: takes out what was indexed for that rowid
    under those values. *)
Definition fts_delete (e : Fts.t) (ix : list Fts.t) : list Fts.t :=
  filter (fun x => negb (Fts.eqb x e)) ix.

Definition notes_ai (new : Note.t) (ix : list Fts.t) : list Fts.t :=
  fts_insert (fts_entry new) ix.

Definition notes_ad (old : Note.t) (ix : list Fts.t) : list Fts.t :=
  fts_delete (fts_entry old) ix.

Definition notes_au (old new : Note.t) (ix : list Fts.t) : list Fts.t :=
  fts_insert (fts_entry new) (fts_delete (fts_entry old) ix).

(** ** Lookups shared by the methods *)

Definition folder_exists (fid : Z) (d : Database) : bool :=
  existsb (fun f => Folder.id f =? fid) (folders d).

Definition note_exists (nid : Z) (d : Database) : bool :=
  existsb (fun n => Note.id n =? nid) (notes d).

Definition tag_exists (tid : Z) (d : Database) : bool :=
  existsb (fun t => Tag.id t =? tid) (tags d).

(** The foreign key of [notes.folder_id]: NULL or an existing folder. *)
Definition folder_ref_ok (folder_id : option Z) (d : Database) : bool :=
  match folder_id with
  | None => true
  | Some f => folder_exists f d
  end.

Definition refers_to (fid : Z) (n : Note.t) : bool :=
  match Note.folder_id n with
  | Some g => g =? fid
  | None => false
  end.

(** [UPDATE notes SET ... WHERE p]: every selected row is rewritten by
    [f], and the [notes_au] trigger runs once for each of them. *)
Definition update_rows (p : Note.t -> bool) (f : Note.t -> Note.t)
    (d : Database) : Database :=
  let ix :=
    fold_left (fun ix n => if p n then notes_au n (f n) ix else ix)
              (notes d) (notes_fts d) in
  set_notes_fts ix
    (set_notes (map (fun n => if p n then f n else n) (notes d)) d).

(** [DELETE FROM notes WHERE p]: the rows go, their links go with them
    (ON DELETE CASCADE), and the [notes_ad] trigger runs for each. *)
Definition delete_rows (p : Note.t -> bool) (d : Database) : Database :=
  let ix :=
    fold_left (fun ix n => if p n then notes_ad n ix else ix)
              (notes d) (notes_fts d) in
  let gone := filter p (notes d) in
  set_notes_fts ix
    (set_note_tags_table
       (filter (fun l => negb (existsb (fun n => Note.id n =? NoteTag.note_id l) gone))
               (note_tags d))
       (set_notes (filter (fun n => negb (p n)) (notes d)) d)).

(** ** The methods of [Database] *)

(** The startup check at the end of [_init_schema]: when there are notes
    and the index reports no row, the index is rebuilt from the notes.
    The count over [notes_fts] is read as the number of index entries;
    the properties below hold whether or not the rebuild runs. *)
Definition rebuild (d : Database) : Database :=
  set_notes_fts (map fts_entry (notes d)) d.

Definition init_schema (d : Database) : Database :=
  let c_notes := Z.of_nat (List.length (notes d)) in
  if 0 <? c_notes then
    let c_fts := Z.of_nat (List.length (notes_fts d)) in
    if c_fts =? 0 then rebuild d else d
  else d.

(** [SELECT id, name FROM folders ORDER BY name COLLATE NOCASE] *)
Definition list_folders (d : Database) : list Folder.t :=
  sort_by (fun a b => nocase_leb (Folder.name a) (Folder.name b)) (folders d).

(** [INSERT INTO folders(name) VALUES(?)]; the UNIQUE constraint on
    [name] has the default (binary) collation. *)
Definition create_folder (name : string) (d : Database)
    : Database * outcome Z :=
  if existsb (fun f => String.eqb (Folder.name f) name) (folders d)
  then (d, Raise IntegrityError)
  else
    let id := seq_folders d + 1 in
    (set_seq_folders id (set_folders (folders d ++ [Folder.mk id name]) d),
     Ok id).

(** [UPDATE folders SET name=? WHERE id=?] *)
Definition rename_folder (folder_id : Z) (name : string) (d : Database)
    : Database * outcome unit :=
  if negb (folder_exists folder_id d) then (d, Ok tt)
  else if existsb (fun f => negb (Folder.id f =? folder_id)
                            && String.eqb (Folder.name f) name) (folders d)
  then (d, Raise IntegrityError)
  else
    (set_folders
       (map (fun f => if Folder.id f =? folder_id
                      then Folder.mk (Folder.id f) name else f) (folders d)) d,
     Ok tt).

Definition clear_folder (n : Note.t) : Note.t :=
  Note.mk (Note.id n) None (Note.title n) (Note.content n)
          (Note.created_at n) (Note.updated_at n).

(** [DELETE FROM folders WHERE id=?], with the ON DELETE SET NULL action
    of [notes.folder_id] (foreign keys are switched on in
    [_init_schema]). *)
Definition delete_folder (folder_id : Z) (d : Database)
    : Database * outcome unit :=
  if folder_exists folder_id d then
    (update_rows (refers_to folder_id) clear_folder
       (set_folders
          (filter (fun f => negb (Folder.id f =? folder_id)) (folders d)) d),
     Ok tt)
  else (d, Ok tt).

(** [INSERT INTO notes(folder_id, title, content, created_at, updated_at)
     VALUES(?, ?, '', ?, ?)] with [(folder_id, title, now, now)]. *)
Definition create_note (folder_id : option Z) (title : string) (now : Z)
    (d : Database) : Database * outcome Z :=
  if folder_ref_ok folder_id d then
    let id := seq_notes d + 1 in
    let new := Note.mk id folder_id title EmptyString now now in
    (set_notes_fts (notes_ai new (notes_fts d))
       (set_seq_notes id (set_notes (notes d ++ [new]) d)),
     Ok id)
  else (d, Raise IntegrityError).

(** [UPDATE notes SET title=?, content=?, folder_id=?, updated_at=?
     WHERE id=?] *)
Definition update_note (note_id : Z) (title content : string)
    (folder_id : option Z) (now : Z) (d : Database)
    : Database * outcome unit :=
  if negb (note_exists note_id d) then (d, Ok tt)
  else if folder_ref_ok folder_id d then
    (update_rows (fun n => Note.id n =? note_id)
       (fun n => Note.mk (Note.id n) folder_id title content
                         (Note.created_at n) now) d,
     Ok tt)
  else (d, Raise IntegrityError).

(** [DELETE FROM notes WHERE id=?] *)
Definition delete_note (note_id : Z) (d : Database)
    : Database * outcome unit :=
  (delete_rows (fun n => Note.id n =? note_id) d, Ok tt).

(** [SELECT ... FROM notes WHERE id=?], [fetchone] *)
Definition get_note (note_id : Z) (d : Database) : option Note.t :=
  find (fun n => Note.id n =? note_id) (notes d).

(** [SELECT id FROM notes WHERE title = ? COLLATE NOCASE LIMIT 1] on
    [title.strip()] *)
Definition get_note_id_by_title (title : string) (d : Database) : option Z :=
  option_map Note.id
    (find (fun n => String.eqb (nocase (Note.title n)) (nocase (strip title)))
          (notes d)).

Definition has_link (note_id tag_id : Z) (d : Database) : bool :=
  existsb (fun l => (NoteTag.note_id l =? note_id)
                    && (NoteTag.tag_id l =? tag_id)) (note_tags d).

(** [SELECT t.id, t.name FROM tags t JOIN note_tags nt ON nt.tag_id = t.id
     WHERE nt.note_id=? ORDER BY t.name COLLATE NOCASE] *)
Definition list_note_tags (note_id : Z) (d : Database) : list Tag.t :=
  sort_by (fun a b => nocase_leb (Tag.name a) (Tag.name b))
    (flat_map
       (fun t => map (fun _ => t)
                   (filter (fun l => (NoteTag.tag_id l =? Tag.id t)
                                     && (NoteTag.note_id l =? note_id))
                           (note_tags d)))
       (tags d)).

(** [DELETE FROM tags WHERE id NOT IN (SELECT tag_id FROM note_tags)] *)
Definition clean_unused_tags (d : Database) : Database :=
  set_tags
    (filter (fun t => existsb (fun l => NoteTag.tag_id l =? Tag.id t)
                              (note_tags d))
            (tags d)) d.

(** The usage count of [all_tags]: [COUNT(nt.note_id)] over the left
    join. *)
Definition usage (tag_id : Z) (d : Database) : Z :=
  Z.of_nat (List.length (filter (fun l => NoteTag.tag_id l =? tag_id) (note_tags d))).

Definition all_tags (d : Database) : list TagUsage.t :=
  map (fun t => TagUsage.mk (Tag.id t) (Tag.name t) (usage (Tag.id t) d))
      (sort_by (fun a b => nocase_leb (Tag.name a) (Tag.name b)) (tags d)).

(** The names [set_note_tags] works on:
    [[n.strip() for n in tag_names if n.strip()]]. *)
Definition clean_names (tag_names : list string) : list string :=
  map strip (filter (fun n => negb (is_empty (strip n))) tag_names).

(** One turn of the first loop: INSERT INTO tags, and on the UNIQUE
    violation SELECT the id of the tag that has the name. *)
Definition intern_tag (name : string) (st : Database * list Z)
    : Database * list Z :=
  let (d, tag_ids) := st in
  if existsb (fun t => String.eqb (Tag.name t) name) (tags d) then
    match find (fun t => String.eqb (Tag.name t) name) (tags d) with
    | Some row => (d, tag_ids ++ [Tag.id row])
    | None => (d, tag_ids)
    end
  else
    let id := seq_tags d + 1 in
    (set_seq_tags id (set_tags (tags d ++ [Tag.mk id name]) d),
     tag_ids ++ [id]).

Definition intern_tags (names : list string) (d : Database)
    : Database * list Z :=
  fold_left (fun st name => intern_tag name st) names (d, []).

(** The second loop: INSERT OR IGNORE INTO note_tags.  A pair that is
    already there is skipped; a pair whose note or tag does not exist
    fails the foreign key, and the exception leaves the loop. *)
Fixpoint link_tags (note_id : Z) (tag_ids : list Z) (d : Database)
    : Database * outcome unit :=
  match tag_ids with
  | [] => (d, Ok tt)
  | tid :: rest =>
      if has_link note_id tid d then link_tags note_id rest d
      else if note_exists note_id d && tag_exists tid d then
        link_tags note_id rest
          (set_note_tags_table (note_tags d ++ [NoteTag.mk note_id tid]) d)
      else (d, Raise IntegrityError)
  end.

Definition set_note_tags (note_id : Z) (tag_names : list string)
    (d : Database) : Database * outcome unit :=
  let tag_names := clean_names tag_names in
  let (d1, tag_ids) := intern_tags tag_names d in
  let d2 :=
    set_note_tags_table
      (filter (fun l => negb (NoteTag.note_id l =? note_id)) (note_tags d1)) d1 in
  match link_tags note_id tag_ids d2 with
  | (d3, Ok _) => (clean_unused_tags d3, Ok tt)
  | (d3, Raise e) => (d3, Raise e)
  end.

(** [UPDATE notes SET folder_id=?, updated_at=? WHERE id=?] *)
Definition move_note (note_id : Z) (to_folder_id : option Z) (now : Z)
    (d : Database) : Database * outcome unit :=
  if negb (note_exists note_id d) then (d, Ok tt)
  else if folder_ref_ok to_folder_id d then
    (update_rows (fun n => Note.id n =? note_id)
       (fun n => Note.mk (Note.id n) to_folder_id (Note.title n)
                         (Note.content n) (Note.created_at n) now) d,
     Ok tt)
  else (d, Raise IntegrityError).

(** [counts]: notes, folders, tags *)
Definition counts (d : Database) : Z * Z * Z :=
  (Z.of_nat (List.length (notes d)), Z.of_nat (List.length (folders d)),
   Z.of_nat (List.length (tags d))).

(** ** [search_notes] *)

(** The index expression built from the query: the query between
    double quotes, its own quotes doubled, with a trailing star when it
    holds no blank. *)
Definition fts_query (query : string) : string :=
  let clean_q := replace_quotes query in
  if has_space clean_q
  then String dquote (clean_q ++ String dquote EmptyString)%string
  else String dquote (clean_q ++ String dquote (String star EmptyString))%string.

(** [n.folder_id = ?] *)
Definition folder_clause (f : Z) (n : Note.t) : bool := refers_to f n.

(** [n.id IN (SELECT rowid FROM notes_fts WHERE notes_fts MATCH ?)] *)
Definition text_clause (rowids : list Z) (n : Note.t) : bool :=
  existsb (fun r => r =? Note.id n) rowids.

(** The tag ids of the links of note [n] that fall in [tag_ids]: the
    group of [n] in the tag subquery. *)
Definition linked_in (tag_ids : list Z) (d : Database) (n : Note.t) : list Z :=
  map NoteTag.tag_id
    (filter (fun l => (NoteTag.note_id l =? Note.id n)
                      && existsb (fun t => t =? NoteTag.tag_id l) tag_ids)
            (note_tags d)).

(** [n.id IN (SELECT nt.note_id FROM note_tags nt WHERE nt.tag_id IN (...)
     GROUP BY nt.note_id HAVING COUNT(DISTINCT nt.tag_id) = len(tag_ids))] *)
Definition tag_clause (tag_ids : list Z) (d : Database) (n : Note.t) : bool :=
  let group := linked_in tag_ids d n in
  negb (Nat.eqb (List.length group) 0)
  && Nat.eqb (List.length (nodup Z.eq_dec group)) (List.length tag_ids).

(** [ORDER BY n.updated_at DESC] *)
Definition updated_desc (a b : Note.t) : bool :=
  Note.updated_at b <=? Note.updated_at a.

Definition limit : nat := 1000.

Definition select_notes (where_ : list (Note.t -> bool)) (d : Database)
    : list Note.t :=
  firstn limit
    (sort_by updated_desc
       (filter (fun n => forallb (fun clause => clause n) where_) (notes d))).

Definition summary (d : Database) (r : Note.t) : NoteSummary.t :=
  NoteSummary.mk (Note.id r) (Note.title r) (Note.content r)
    (Note.folder_id r) (Note.updated_at r) (list_note_tags (Note.id r) d).

Section Search.
(** The FTS5 matcher: the rowids whose entry matches the expression,
    or nothing when the expression is refused (the engine's error,
    which Python raises as [sqlite3.OperationalError]). *)
Variable fts_match : string -> list Fts.t -> option (list Z).

(** [cur.execute(sql, params)] on the composed statement. *)
Definition execute_search (folder_id : option Z) (query : string)
    (tag_ids : list Z) (d : Database) : outcome (list Note.t) :=
  let where1 :=
    match folder_id with
    | Some f => [folder_clause f]
    | None => []
    end in
  let where3 :=
    match tag_ids with
    | [] => []
    | _ :: _ => [tag_clause tag_ids d]
    end in
  if is_empty query then Ok (select_notes (where1 ++ where3) d)
  else
    match fts_match (fts_query query) (notes_fts d) with
    | Some rowids =>
        Ok (select_notes (where1 ++ [text_clause rowids] ++ where3) d)
    | None => Raise OperationalError
    end.

Definition search_notes (folder_id : option Z) (query : string)
    (tag_ids : list Z) (d : Database) : outcome (list NoteSummary.t) :=
  match execute_search folder_id query tag_ids d with
  | Raise OperationalError => Ok []
  | Raise e => Raise e
  | Ok rows => Ok (map (summary d) rows)
  end.
End Search.

(** ** Sequences of calls *)

Inductive op :=
| CreateFolder (name : string)
| RenameFolder (folder_id : Z) (name : string)
| DeleteFolder (folder_id : Z)
| CreateNote (folder_id : option Z) (title : string) (now : Z)
| UpdateNote (note_id : Z) (title content : string) (folder_id : option Z)
             (now : Z)
| DeleteNote (note_id : Z)
| MoveNote (note_id : Z) (to_folder_id : option Z) (now : Z)
| SetNoteTags (note_id : Z) (tag_names : list string)
| CleanUnusedTags
| Reopen.

(** The store a call leaves behind, whether it returned or raised. *)
Definition step (d : Database) (o : op) : Database :=
  match o with
  | CreateFolder name => fst (create_folder name d)
  | RenameFolder f name => fst (rename_folder f name d)
  | DeleteFolder f => fst (delete_folder f d)
  | CreateNote f title now => fst (create_note f title now d)
  | UpdateNote n title content f now => fst (update_note n title content f now d)
  | DeleteNote n => fst (delete_note n d)
  | MoveNote n f now => fst (move_note n f now d)
  | SetNoteTags n names => fst (set_note_tags n names d)
  | CleanUnusedTags => clean_unused_tags d
  | Reopen => init_schema d
  end.

Definition run (ops : list op) (d : Database) : Database :=
  fold_left step ops d.

(** ** The search as the specification words it *)

(** A note carries all the given tag identifiers. *)
Definition carries_all (tag_ids : list Z) (d : Database) (n : Note.t) : bool :=
  forallb (fun t => has_link (Note.id n) t d) tag_ids.

(** The folder scope: absent, or the note's folder is the given one. *)
Definition in_scope (folder_id : option Z) (n : Note.t) : bool :=
  match folder_id with
  | None => true
  | Some f => refers_to f n
  end.

(** The notes a search is about once its tag filter is read as
    "carries all of them": in the folder scope, matched by the text
    index when there is a query, carrying every tag; most recently
    updated first, the first thousand.  A query the index refuses
    matches nothing. *)
Definition search_carrying_all
    (fts_match : string -> list Fts.t -> option (list Z))
    (folder_id : option Z) (query : string) (tag_ids : list Z)
    (d : Database) : list NoteSummary.t :=
  let text_ok : option (Note.t -> bool) :=
    if is_empty query then Some (fun _ => true)
    else option_map text_clause (fts_match (fts_query query) (notes_fts d)) in
  match text_ok with
  | None => []
  | Some matches =>
      map (summary d)
        (firstn 1000
           (sort_by updated_desc
              (filter (fun n => in_scope folder_id n && matches n
                                && carries_all tag_ids d n)
                      (notes d))))
  end.


(** ** Invariants of the store *)

(** Note ids are distinct and none is above the counter. *)
Definition notes_keyed (d : Database) : Prop :=
  NoDup (map Note.id (notes d))
  /\ Forall (fun n => Note.id n <= seq_notes d) (notes d).

(** The index holds, in some order, one entry per note, made of the
    note's id, title and content. *)
Definition index_synced (d : Database) : Prop :=
  Permutation (notes_fts d) (map fts_entry (notes d)).

(** No two tags have the same name, compared character by character. *)
Definition tag_names_unique (d : Database) : Prop :=
  NoDup (map Tag.name (tags d)).

(** No two tags have names that differ only in letter case. *)
Definition tag_names_nocase_unique (d : Database) : Prop :=
  NoDup (map (fun t => nocase (Tag.name t)) (tags d)).

Definition consistent (d : Database) : Prop :=
  notes_keyed d /\ index_synced d /\ tag_names_unique d.

(** The notes table, the index and the notes counter are the same in
    both stores. *)
Definition notes_untouched (d d' : Database) : Prop :=
  notes d' = notes d /\ notes_fts d' = notes_fts d /\ seq_notes d' = seq_notes d.

(** The first loop of [set_note_tags], from any point of its run. *)
Definition intern_from (names : list string) (st : Database * list Z)
    : Database * list Z :=
  fold_left (fun st name => intern_tag name st) names st.

(** ** Further invariants of the store *)

(** Folder ids are distinct and none is above the counter. *)
Definition folders_keyed (d : Database) : Prop :=
  NoDup (map Folder.id (folders d))
  /\ Forall (fun f => Folder.id f <= seq_folders d) (folders d).

(** No two folders have the same name, compared character by character. *)
Definition folder_names_unique (d : Database) : Prop :=
  NoDup (map Folder.name (folders d)).

(** Tag ids are distinct and none is above the counter. *)
Definition tags_keyed (d : Database) : Prop :=
  NoDup (map Tag.id (tags d))
  /\ Forall (fun t => Tag.id t <= seq_tags d) (tags d).

(** The foreign keys and the primary key of [note_tags]: a note's folder
    is NULL or a folder that exists, a link joins a note and a tag that
    exist, and no pair is linked twice. *)
Definition refs_ok (d : Database) : Prop :=
  (forall n, In n (notes d) -> folder_ref_ok (Note.folder_id n) d = true)
  /\ (forall l, In l (note_tags d) ->
        note_exists (NoteTag.note_id l) d = true
        /\ tag_exists (NoteTag.tag_id l) d = true)
  /\ NoDup (note_tags d).

(** Tag names are stored stripped and are never empty. *)
Definition tag_names_clean (d : Database) : Prop :=
  forall t, In t (tags d) ->
    strip (Tag.name t) = Tag.name t /\ is_empty (Tag.name t) = false.

(** Every id handed out is at least 1. *)
Definition ids_positive (d : Database) : Prop :=
  (0 <= seq_folders d /\ 0 <= seq_notes d /\ 0 <= seq_tags d)
  /\ Forall (fun f => 0 < Folder.id f) (folders d)
  /\ Forall (fun n => 0 < Note.id n) (notes d)
  /\ Forall (fun t => 0 < Tag.id t) (tags d).

Definition well_formed (d : Database) : Prop :=
  consistent d /\ folders_keyed d /\ folder_names_unique d /\ tags_keyed d
  /\ refs_ok d /\ tag_names_clean d /\ ids_positive d.

(** The folders table and its counter are the same in both stores. *)
Definition folders_untouched (d d' : Database) : Prop :=
  folders d' = folders d /\ seq_folders d' = seq_folders d.

(** A note passes every filter of a search: folder scope, text match
    when there is a query (a query the index refuses matches nothing),
    and the tag count when tag ids are given. *)
Definition passes (fts_match : string -> list Fts.t -> option (list Z))
    (folder_id : option Z) (query : string) (tag_ids : list Z)
    (d : Database) (n : Note.t) : bool :=
  in_scope folder_id n
  && (if is_empty query then true
      else match fts_match (fts_query query) (notes_fts d) with
           | Some rowids => text_clause rowids n
           | None => false
           end)
  && match tag_ids with
     | [] => true
     | _ :: _ => tag_clause tag_ids d n
     end.

(** What the second loop of [set_note_tags] leaves in [note_tags] when
    no foreign key fails: each id not yet linked to the note is
    appended, in the order given. *)
Fixpoint link_list (note_id : Z) (tag_ids : list Z) (links : list NoteTag.t)
    : list NoteTag.t :=
  match tag_ids with
  | [] => links
  | tid :: rest =>
      if existsb (fun l => (NoteTag.note_id l =? note_id)
                           && (NoteTag.tag_id l =? tid)) links
      then link_list note_id rest links
      else link_list note_id rest (links ++ [NoteTag.mk note_id tid])
  end.

(** [SELECT id FROM tags WHERE name=?], [fetchone] *)
Definition tag_id_by_name (name : string) (table : list Tag.t) : option Z :=
  option_map Tag.id (find (fun t => String.eqb (Tag.name t) name) table).

(** * Properties *)

(** ** Lists and sorting *)

Lemma filter_Permutation {A} (p : A -> bool) (l l' : list A) :
  Permutation l l' -> Permutation (filter p l) (filter p l').
Proof.
  induction 1 as [|x l l' _ IH|x y l|l l' l'' _ IH1 _ IH2]; simpl.
  - constructor.
  - destruct (p x); [constructor|]; exact IH.
  - destruct (p x), (p y); try reflexivity. constructor.
  - etransitivity; eassumption.
Qed.

Lemma filter_all {A} (p : A -> bool) (l : list A) :
  (forall x, In x l -> p x = true) -> filter p l = l.
Proof.
  induction l as [|a l IH]; simpl; intros H; [reflexivity|].
  rewrite (H a (or_introl eq_refl)). f_equal. apply IH. auto.
Qed.

Lemma filter_none {A} (p : A -> bool) (l : list A) :
  (forall x, In x l -> p x = false) -> filter p l = [].
Proof.
  induction l as [|a l IH]; simpl; intros H; [reflexivity|].
  rewrite (H a (or_introl eq_refl)). apply IH. auto.
Qed.

Lemma NoDup_map_eq {A B} (f : A -> B) (l : list A) (a b : A) :
  NoDup (map f l) -> In a l -> In b l -> f a = f b -> a = b.
Proof.
  induction l as [|x l IH]; simpl; intros N Ha Hb E; [contradiction|].
  inversion N as [|? ? Hx N']; subst.
  destruct Ha as [->|Ha], Hb as [->|Hb]; auto.
  - exfalso. apply Hx. rewrite E. now apply in_map.
  - exfalso. apply Hx. rewrite <- E. now apply in_map.
Qed.

Section SortFacts.
Context {A : Type} (le : A -> A -> bool).

Lemma insert_by_perm (x : A) (l : list A) :
  Permutation (insert_by le x l) (x :: l).
Proof.
  induction l as [|y r IH]; simpl; [reflexivity|].
  destruct (le x y); [reflexivity|].
  rewrite IH. constructor.
Qed.

Lemma sort_by_perm (l : list A) : Permutation (sort_by le l) l.
Proof.
  induction l as [|x l IH]; simpl; [constructor|].
  rewrite insert_by_perm. now constructor.
Qed.

Lemma sort_by_In (l : list A) (x : A) : In x (sort_by le l) <-> In x l.
Proof.
  split; apply Permutation_in; [|symmetry]; apply sort_by_perm.
Qed.

Hypothesis le_total : forall a b, le a b = true \/ le b a = true.
Hypothesis le_trans : forall a b c, le a b = true -> le b c = true -> le a c = true.

Lemma insert_by_sorted (x : A) (l : list A) :
  StronglySorted (fun a b => le a b = true) l ->
  StronglySorted (fun a b => le a b = true) (insert_by le x l).
Proof.
  induction 1 as [|y r S IH F]; simpl.
  - repeat constructor.
  - destruct (le x y) eqn:E.
    + constructor; [now constructor|].
      constructor; [exact E|].
      eapply Forall_impl; [|exact F]. intros b Hb. now apply le_trans with y.
    + constructor; [exact IH|].
      apply (Permutation_Forall (Permutation_sym (insert_by_perm x r))).
      constructor; [|exact F].
      destruct (le_total x y) as [H|H]; congruence.
Qed.

Lemma sort_by_sorted (l : list A) :
  StronglySorted (fun a b => le a b = true) (sort_by le l).
Proof.
  induction l as [|x l IH]; simpl; [constructor|].
  now apply insert_by_sorted.
Qed.
End SortFacts.


Lemma StronglySorted_map {A B} (f : A -> B) (R : B -> B -> Prop) (l : list A) :
  StronglySorted (fun a b => R (f a) (f b)) l -> StronglySorted R (map f l).
Proof.
  induction 1 as [|a l S IH F]; simpl; constructor; [exact IH|].
  rewrite Forall_forall in *. intros y Hy.
  apply in_map_iff in Hy as (x & <- & Hx). now apply F.
Qed.

(** ** Search *)








(** *** The tag filter *)

Lemma linked_in_spec (tag_ids : list Z) (d : Database) (n : Note.t) (t : Z) :
  In t (linked_in tag_ids d n)
  <-> In t tag_ids /\ has_link (Note.id n) t d = true.
Proof.
  unfold linked_in, has_link. rewrite in_map_iff. split.
  - intros (l & <- & Hl). apply filter_In in Hl as (Hl & H).
    apply andb_prop in H as (Hn & Ht).
    apply existsb_exists in Ht as (t & Ht & E). apply Z.eqb_eq in E. subst t.
    split; [exact Ht|]. apply existsb_exists. exists l.
    rewrite Hn, Z.eqb_refl. auto.
  - intros (Ht & H). apply existsb_exists in H as (l & Hl & H).
    apply andb_prop in H as (Hn & E). apply Z.eqb_eq in E.
    exists l. split; [exact E|]. apply filter_In. split; [exact Hl|].
    rewrite Hn. apply existsb_exists. exists t. rewrite E, Z.eqb_refl. auto.
Qed.

Lemma nodup_length_le (l : list Z) :
  (List.length (nodup Z.eq_dec l) <= List.length l)%nat.
Proof.
  induction l as [|a l IH]; simpl; [lia|].
  destruct (in_dec Z.eq_dec a l); simpl; lia.
Qed.

Lemma nodup_length_lt (l : list Z) :
  ~ NoDup l -> (List.length (nodup Z.eq_dec l) < List.length l)%nat.
Proof.
  induction l as [|a l IH]; intros H.
  - exfalso. apply H. constructor.
  - simpl. destruct (in_dec Z.eq_dec a l) as [i|ni].
    + pose proof (nodup_length_le l). lia.
    + simpl. apply -> Nat.succ_lt_mono. apply IH. intros N. apply H.
      now constructor.
Qed.

(** With a repeated identifier the HAVING count can never be reached. *)
Lemma tag_clause_repeated (tag_ids : list Z) (d : Database) (n : Note.t) :
  ~ NoDup tag_ids -> tag_clause tag_ids d n = false.
Proof.
  intros H. unfold tag_clause. apply andb_false_iff. right.
  apply Nat.eqb_neq.
  pose proof (nodup_length_lt tag_ids H) as Hlt.
  assert ((List.length (nodup Z.eq_dec (linked_in tag_ids d n))
           <= List.length (nodup Z.eq_dec tag_ids))%nat) as Hle.
  { apply NoDup_incl_length; [apply NoDup_nodup|].
    intros t Ht. apply nodup_In. apply nodup_In in Ht.
    now apply linked_in_spec in Ht. }
  lia.
Qed.

(** With distinct identifiers the HAVING count is reached exactly by
    the notes that carry every one of them. *)
Lemma tag_clause_all (tag_ids : list Z) (d : Database) (n : Note.t) :
  tag_ids <> [] -> NoDup tag_ids ->
  tag_clause tag_ids d n = carries_all tag_ids d n.
Proof.
  intros Hne N. unfold tag_clause, carries_all.
  set (group := linked_in tag_ids d n).
  assert (incl (nodup Z.eq_dec group) tag_ids) as Hin.
  { intros t Ht. apply nodup_In in Ht. now apply linked_in_spec in Ht. }
  destruct (forallb _ tag_ids) eqn:Hall.
  - rewrite forallb_forall in Hall.
    assert (incl tag_ids (nodup Z.eq_dec group)) as Hni.
    { intros t Ht. apply nodup_In. apply linked_in_spec. auto. }
    apply andb_true_iff. split.
    + destruct tag_ids as [|t r]; [congruence|].
      assert (In t group) as Hg.
      { apply linked_in_spec. split; [now left|]. apply Hall. now left. }
      destruct group; [contradiction|reflexivity].
    + apply Nat.eqb_eq. apply Nat.le_antisymm;
        apply NoDup_incl_length; auto using NoDup_nodup.
  - apply andb_false_iff. right. apply Nat.eqb_neq. intros E.
    assert (incl tag_ids (nodup Z.eq_dec group)) as Hni.
    { apply NoDup_length_incl; [apply NoDup_nodup|lia|exact Hin]. }
    assert (forallb (fun t => has_link (Note.id n) t d) tag_ids = true) as C.
    { apply forallb_forall. intros t Ht. apply Hni in Ht.
      apply nodup_In in Ht. now apply linked_in_spec in Ht. }
    congruence.
Qed.

(** C10: a tag-identifier list with a repeated identifier finds nothing,
    whatever the notes carry. *)
Theorem C10_repeated_tag_id_finds_nothing :
  forall (fts_match : string -> list Fts.t -> option (list Z))
         (folder_id : option Z) (query : string) (tag_ids : list Z)
         (d : Database),
  ~ NoDup tag_ids ->
  search_notes fts_match folder_id query tag_ids d = Ok [].
Proof.
  intros fm folder_id query tag_ids d H.
  assert (forall pre, select_notes (pre ++ [tag_clause tag_ids d]) d = []) as S.
  { intros pre. unfold select_notes. rewrite filter_none; [now rewrite firstn_nil|].
    intros n _. rewrite forallb_app. cbn [forallb].
    rewrite (tag_clause_repeated tag_ids d n H). now rewrite andb_false_r. }
  unfold search_notes, execute_search.
  destruct tag_ids as [|t r]; [exfalso; apply H; constructor|].
  destruct (is_empty query).
  - now rewrite S.
  - destruct (fm _ _); [|reflexivity]. now rewrite app_assoc, S.
Qed.

Lemma C10_witness :
  let d := run [CreateNote None "shopping"%string 7;
                SetNoteTags 1 ["home"%string]] empty_db in
  ~ NoDup [1; 1] /\
  has_link 1 1 d = true /\
  search_notes (fun _ _ => None) None EmptyString [1; 1] d = Ok [] /\
  (exists s, search_notes (fun _ _ => None) None EmptyString [1] d = Ok [s]).
Proof.
  intros d.
  assert (~ NoDup [1; 1]) as H.
  { intros N. inversion N as [|? ? Hn _]. apply Hn. now left. }
  split; [exact H|]. split; [reflexivity|].
  split; [apply (C10_repeated_tag_id_finds_nothing _ None EmptyString [1; 1] d H)|].
  eexists. vm_compute. reflexivity.
Defined.

(** C4: with a non-empty set of tag identifiers, the count the HAVING
    clause compares singles out the notes that carry all of them, and
    the search returns those notes, within the folder scope and the text
    match, in order and cut at 1000. *)
Theorem C4_tag_filter_requires_all :
  forall (fts_match : string -> list Fts.t -> option (list Z))
         (folder_id : option Z) (query : string) (tag_ids : list Z)
         (d : Database),
  tag_ids <> [] -> NoDup tag_ids ->
  (forall n, tag_clause tag_ids d n = carries_all tag_ids d n) /\
  search_notes fts_match folder_id query tag_ids d
  = Ok (search_carrying_all fts_match folder_id query tag_ids d).
Proof.
  intros fm folder_id query tag_ids d Hne N.
  split; [intros n; now apply tag_clause_all|].
  unfold search_notes, execute_search, search_carrying_all.
  destruct tag_ids as [|t r] eqn:Et; [congruence|]. rewrite <- Et in *.
  assert (forall (pre : list (Note.t -> bool)) (q : Note.t -> bool),
             (forall n, forallb (fun c => c n) pre = q n) ->
             select_notes (pre ++ [tag_clause tag_ids d]) d
             = firstn 1000
                 (sort_by updated_desc
                    (filter (fun n => q n && carries_all tag_ids d n) (notes d))))
    as S.
  { intros pre q Hq. unfold select_notes. change limit with 1000%nat.
    do 2 f_equal. apply filter_ext. intros n.
    rewrite forallb_app, Hq. cbn [forallb].
    now rewrite andb_true_r, tag_clause_all. }
  destruct (is_empty query).
  - cbn [option_map]. f_equal. f_equal. rewrite (S _ (fun n => in_scope folder_id n && true)).
    + reflexivity.
    + intros n. destruct folder_id; cbn; unfold folder_clause;
        now rewrite ?andb_true_r.
  - destruct (fm _ _) as [rowids|]; [|reflexivity].
    cbn [option_map]. f_equal. f_equal. rewrite app_assoc.
    rewrite (S _ (fun n => in_scope folder_id n && text_clause rowids n)).
    + reflexivity.
    + intros n. destruct folder_id; cbn; unfold folder_clause;
        now rewrite ?andb_true_r.
Qed.

(** Notes tagged {A}, {A,B}, {B}: the filter {A,B} finds the second. *)
Lemma C4_witness :
  let d := run [CreateNote None "one"%string 1;
                CreateNote None "two"%string 2;
                CreateNote None "three"%string 3;
                SetNoteTags 1 ["A"%string];
                SetNoteTags 2 ["A"%string; "B"%string];
                SetNoteTags 3 ["B"%string]] empty_db in
  ([1; 2] <> [] /\ NoDup [1; 2]) /\
  exists result,
    search_notes (fun _ _ => None) None EmptyString [1; 2] d = Ok result /\
    map NoteSummary.id result = [2].
Proof.
  intros d.
  assert ([1; 2] <> []) as Hne by discriminate.
  assert (NoDup [1; 2]) as N.
  { repeat constructor; simpl; intuition lia. }
  split; [split; assumption|].
  eexists. split.
  - apply (C4_tag_filter_requires_all (fun _ _ => None) None EmptyString [1; 2] d Hne N).
  - vm_compute. reflexivity.
Defined.

(** *** The query expression *)




(** ** The index under the triggers *)

Lemma rowid_fts_entry (l : list Note.t) :
  map Fts.rowid (map fts_entry l) = map Note.id l.
Proof. rewrite map_map. reflexivity. Qed.

Lemma Fts_eqb_refl (e : Fts.t) : Fts.eqb e e = true.
Proof. unfold Fts.eqb. now rewrite Z.eqb_refl, !String.eqb_refl. Qed.

Lemma Fts_eqb_rowid (a b : Fts.t) :
  Fts.rowid a <> Fts.rowid b -> Fts.eqb a b = false.
Proof.
  intros H. unfold Fts.eqb. apply Z.eqb_neq in H. now rewrite H.
Qed.

Lemma fts_delete_head (e : Fts.t) (r : list Fts.t) :
  NoDup (map Fts.rowid (e :: r)) -> fts_delete e (e :: r) = r.
Proof.
  intros N. inversion N as [|? ? Hn _]; subst.
  unfold fts_delete. cbn [filter]. rewrite Fts_eqb_refl. cbn [negb].
  apply filter_all. intros x Hx. apply negb_true_iff. apply Fts_eqb_rowid.
  intros E. apply Hn. rewrite <- E. now apply in_map.
Qed.

Lemma fts_delete_perm (e : Fts.t) (ix r : list Fts.t) :
  Permutation ix (e :: r) -> NoDup (map Fts.rowid (e :: r)) ->
  Permutation (fts_delete e ix) r.
Proof.
  intros P N. rewrite <- (fts_delete_head e r N).
  now apply filter_Permutation.
Qed.

Lemma NoDup_ids_middle (done l : list Note.t) (n : Note.t) :
  NoDup (map Note.id (done ++ n :: l)) ->
  NoDup (map Fts.rowid (fts_entry n :: map fts_entry (done ++ l))).
Proof.
  intros N. cbn [map]. rewrite rowid_fts_entry.
  change (NoDup (map Note.id (n :: done ++ l))).
  eapply Permutation_NoDup; [|exact N].
  apply Permutation_map. symmetry. apply Permutation_middle.
Qed.

Lemma update_fold (p : Note.t -> bool) (f : Note.t -> Note.t) :
  (forall n, Note.id (f n) = Note.id n) ->
  forall l done ix,
    NoDup (map Note.id (done ++ l)) ->
    Permutation ix (map fts_entry (done ++ l)) ->
    Permutation
      (fold_left (fun ix n => if p n then notes_au n (f n) ix else ix) l ix)
      (map fts_entry (done ++ map (fun n => if p n then f n else n) l)).
Proof.
  intros Hf. induction l as [|n l IH]; intros done ix N P; [exact P|].
  cbn [fold_left map]. destruct (p n).
  - replace (done ++ f n :: map (fun n => if p n then f n else n) l)
      with ((done ++ [f n]) ++ map (fun n => if p n then f n else n) l)
      by now rewrite <- app_assoc.
    apply IH.
    + rewrite <- app_assoc, map_app. cbn [app map]. rewrite Hf.
      now rewrite map_app in N.
    + unfold notes_au, fts_insert.
      rewrite <- Permutation_cons_append.
      rewrite <- app_assoc, map_app. cbn [app map].
      rewrite <- Permutation_middle. constructor. rewrite <- map_app.
      apply fts_delete_perm; [|now apply NoDup_ids_middle].
      rewrite P, !map_app. cbn [map]. symmetry. apply Permutation_middle.
  - replace (done ++ n :: map (fun n => if p n then f n else n) l)
      with ((done ++ [n]) ++ map (fun n => if p n then f n else n) l)
      by now rewrite <- app_assoc.
    apply IH; now rewrite <- app_assoc.
Qed.

Lemma delete_fold (p : Note.t -> bool) :
  forall l done ix,
    NoDup (map Note.id (done ++ l)) ->
    Permutation ix (map fts_entry (done ++ l)) ->
    Permutation
      (fold_left (fun ix n => if p n then notes_ad n ix else ix) l ix)
      (map fts_entry (done ++ filter (fun n => negb (p n)) l)).
Proof.
  induction l as [|n l IH]; intros done ix N P; [exact P|].
  cbn [fold_left filter]. destruct (p n); cbn [negb].
  - apply IH.
    + rewrite map_app in *. cbn [map] in N. now apply NoDup_remove_1 in N.
    + unfold notes_ad. apply fts_delete_perm; [|now apply NoDup_ids_middle].
      rewrite P, !map_app. cbn [map]. symmetry. apply Permutation_middle.
  - replace (done ++ n :: filter (fun n => negb (p n)) l)
      with ((done ++ [n]) ++ filter (fun n => negb (p n)) l)
      by now rewrite <- app_assoc.
    apply IH; now rewrite <- app_assoc.
Qed.

Lemma update_rows_keeps (p : Note.t -> bool) (f : Note.t -> Note.t)
    (d : Database) :
  (forall n, Note.id (f n) = Note.id n) ->
  notes_keyed d -> index_synced d ->
  notes_keyed (update_rows p f d) /\ index_synced (update_rows p f d).
Proof.
  intros Hf [N B] P. unfold notes_keyed, index_synced, update_rows.
  cbn [notes notes_fts seq_notes set_notes set_notes_fts].
  assert (map Note.id (map (fun n => if p n then f n else n) (notes d))
          = map Note.id (notes d)) as E.
  { rewrite map_map. apply map_ext. intros n. destruct (p n); auto. }
  split; [split|].
  - now rewrite E.
  - rewrite Forall_forall in *. intros m Hm.
    apply in_map_iff in Hm as (n & <- & Hn).
    specialize (B n Hn). destruct (p n); [rewrite Hf|]; exact B.
  - apply (update_fold p f Hf (notes d) [] (notes_fts d)); assumption.
Qed.

Lemma delete_rows_keeps (p : Note.t -> bool) (d : Database) :
  notes_keyed d -> index_synced d ->
  notes_keyed (delete_rows p d) /\ index_synced (delete_rows p d).
Proof.
  intros [N B] P. unfold notes_keyed, index_synced, delete_rows.
  cbn [notes notes_fts seq_notes set_notes set_notes_fts set_note_tags_table].
  split; [split|].
  - clear B P. induction (notes d) as [|n l IH]; [constructor|].
    cbn [map] in N. inversion N as [|? ? Hn N']; subst.
    cbn [filter]. destruct (negb (p n)); [|auto].
    cbn [map]. constructor; [|auto].
    intros H. apply Hn. apply in_map_iff in H as (m & E & Hm).
    apply filter_In in Hm as [Hm _]. rewrite <- E. now apply in_map.
  - rewrite Forall_forall in *. intros m Hm. apply filter_In in Hm as [Hm _].
    now apply B.
  - apply (delete_fold p (notes d) [] (notes_fts d)); assumption.
Qed.

(** ** What [set_note_tags] touches *)

Lemma untouched_keeps (d d' : Database) :
  notes_untouched d d' -> notes_keyed d -> index_synced d ->
  notes_keyed d' /\ index_synced d'.
Proof.
  intros (En & Ei & Es) [N B] P. unfold notes_keyed, index_synced.
  rewrite En, Ei, Es. auto.
Qed.

Lemma NoDup_map_filter {Row Key} (keep : Row -> bool) (key : Row -> Key)
    (rows : list Row) (N : NoDup (map key rows)) :
  NoDup (map key (filter keep rows)).
Proof.
  induction rows as [|r rows IH]; cbn [map filter] in *; [constructor|].
  inversion N as [|? ? Hn N']; subst.
  destruct (keep r); [|auto]. cbn [map]. constructor; [|auto].
  intros H. apply Hn. apply in_map_iff in H as (x & E & Hx).
  apply filter_In in Hx as [Hx _]. rewrite <- E. now apply in_map.
Qed.

Lemma intern_tag_frame (name : string) (st : Database * list Z) :
  let st' := intern_tag name st in
  notes_untouched (fst st) (fst st')
  /\ note_tags (fst st') = note_tags (fst st)
  /\ (exists extra, tags (fst st') = tags (fst st) ++ extra)
  /\ (exists more, snd st' = snd st ++ more)
  /\ (tag_names_unique (fst st) -> tag_names_unique (fst st'))
  /\ (exists t, In t (tags (fst st')) /\ Tag.name t = name
                /\ In (Tag.id t) (snd st')).
Proof.
  destruct st as [d ids]. unfold intern_tag. cbn [fst snd].
  destruct (existsb _ (tags d)) eqn:Ex.
  - destruct (find _ (tags d)) as [row|] eqn:F.
    + cbn [fst snd]. repeat split; auto.
      * exists []. now rewrite app_nil_r.
      * eexists; reflexivity.
      * apply find_some in F as [Hin E]. apply String.eqb_eq in E.
        exists row. repeat split; auto. apply in_or_app. right. now left.
    + exfalso. apply existsb_exists in Ex as (t & Ht & E).
      rewrite (find_none _ _ F t Ht) in E. discriminate.
  - cbn [fst snd tags notes notes_fts seq_notes note_tags set_seq_tags set_tags].
    repeat split.
    + eexists; reflexivity.
    + eexists; reflexivity.
    + unfold tag_names_unique. cbn [tags set_seq_tags set_tags]. intros N.
      rewrite map_app. cbn [map Tag.name].
      apply NoDup_app; repeat split.
      * exact N.
      * repeat constructor. intros [].
      * intros x Hx [<-|[]]. apply in_map_iff in Hx as (t & E & Ht).
        assert (existsb (fun t => String.eqb (Tag.name t) name) (tags d) = true)
          as C; [|congruence].
        apply existsb_exists. exists t. split; [exact Ht|]. now apply String.eqb_eq.
    + eexists. split; [apply in_or_app; right; now left|].
      split; [reflexivity|]. apply in_or_app. right. now left.
Qed.

Lemma intern_from_frame (names : list string) :
  forall st,
    let st' := intern_from names st in
    notes_untouched (fst st) (fst st')
    /\ note_tags (fst st') = note_tags (fst st)
    /\ (exists extra, tags (fst st') = tags (fst st) ++ extra)
    /\ (exists more, snd st' = snd st ++ more)
    /\ (tag_names_unique (fst st) -> tag_names_unique (fst st'))
    /\ (forall name, In name names ->
          exists t, In t (tags (fst st')) /\ Tag.name t = name
                    /\ In (Tag.id t) (snd st')).
Proof.
  induction names as [|name names IH]; intros st; cbn [intern_from fold_left].
  - repeat split; auto.
    + exists []. now rewrite app_nil_r.
    + exists []. now rewrite app_nil_r.
    + intros ? [].
  - fold (intern_from names (intern_tag name st)).
    destruct (intern_tag_frame name st)
      as ((A1 & A2 & A3) & B & (x1 & C) & (m1 & D) & E & (t & Ht & Hn & Hi)).
    destruct (IH (intern_tag name st))
      as ((A1' & A2' & A3') & B' & (x2 & C') & (m2 & D') & E' & G).
    repeat split; try congruence.
    + exists (x1 ++ x2). now rewrite C', C, app_assoc.
    + exists (m1 ++ m2). now rewrite D', D, app_assoc.
    + auto.
    + intros nm [<-|Hin]; [|now apply G].
      exists t. repeat split; auto.
      * rewrite C'. apply in_or_app. now left.
      * rewrite D'. apply in_or_app. now left.
Qed.

Lemma link_tags_frame (note_id : Z) (tag_ids : list Z) :
  forall d,
    let r := link_tags note_id tag_ids d in
    notes_untouched d (fst r)
    /\ tags (fst r) = tags d
    /\ (exists extra, note_tags (fst r) = note_tags d ++ extra)
    /\ (forall u, snd r = Ok u ->
          forall tid, In tid tag_ids -> has_link note_id tid (fst r) = true).
Proof.
  induction tag_ids as [|tid rest IH]; intros d; cbn [link_tags].
  - split; [repeat split|split; [reflexivity|split]].
    + exists []. now rewrite app_nil_r.
    + intros _ _ ? [].
  - assert (forall d0 tid0, has_link note_id tid0 d0 = true ->
              forall extra d1, note_tags d1 = note_tags d0 ++ extra ->
              has_link note_id tid0 d1 = true) as Mono.
    { unfold has_link. intros d0 t0 H extra d1 E. rewrite E, existsb_app, H.
      reflexivity. }
    destruct (has_link note_id tid d) eqn:Hl.
    + destruct (IH d) as (A & B & (x & C) & D).
      split; [exact A|split; [exact B|split; [now exists x|]]].
      intros u Hu t [<-|Ht]; [|now apply (D u)].
      now apply (Mono d tid Hl x).
    + destruct (note_exists note_id d && tag_exists tid d).
      * set (d1 := set_note_tags_table _ d).
        destruct (IH d1) as ((A1 & A2 & A3) & B & (x & C) & D).
        split; [repeat split; assumption|split; [exact B|split]].
        { exists ([NoteTag.mk note_id tid] ++ x). rewrite C. unfold d1.
          cbn [note_tags set_note_tags_table]. now rewrite <- app_assoc. }
        intros u Hu t [<-|Ht]; [|now apply (D u)].
        apply (Mono d1 tid) with (extra := x); [|exact C].
        unfold has_link, d1. cbn [note_tags set_note_tags_table].
        rewrite existsb_app. cbn [existsb NoteTag.note_id NoteTag.tag_id].
        rewrite !Z.eqb_refl. now rewrite orb_true_r.
      * cbn [fst snd]. split; [repeat split|split; [reflexivity|split]].
        { exists []. now rewrite app_nil_r. } intros u Hu. discriminate.
Qed.

Lemma set_note_tags_keeps (note_id : Z) (tag_names : list string) (d : Database) :
  let d' := fst (set_note_tags note_id tag_names d) in
  notes_untouched d d' /\ (tag_names_unique d -> tag_names_unique d').
Proof.
  unfold set_note_tags.
  pose proof (intern_from_frame (clean_names tag_names) (d, [])) as H.
  unfold intern_tags. fold (intern_from (clean_names tag_names) (d, [])).
  destruct (intern_from (clean_names tag_names) (d, [])) as [d1 ids].
  cbn [fst snd] in H. destruct H as ((A1 & A2 & A3) & _ & _ & _ & U & _).
  set (d2 := set_note_tags_table _ d1).
  pose proof (link_tags_frame note_id ids d2) as L.
  destruct (link_tags note_id ids d2) as [d3 [u|e]]; cbn [fst snd] in *;
    destruct L as ((B1 & B2 & B3) & T & _ & _); subst d2;
    cbn [notes notes_fts seq_notes tags set_note_tags_table] in B1, B2, B3, T.
  - split.
    + unfold notes_untouched, clean_unused_tags. cbn. repeat split; congruence.
    + intros Hu. unfold tag_names_unique, clean_unused_tags. cbn [tags set_tags].
      apply NoDup_map_filter. rewrite T. apply U, Hu.
  - split.
    + repeat split; congruence.
    + intros Hu. unfold tag_names_unique. rewrite T. apply U, Hu.
Qed.

(** ** Every call keeps the store consistent *)

Lemma consistent_frame (d d' : Database) :
  notes_untouched d d' -> tags d' = tags d -> consistent d -> consistent d'.
Proof.
  intros U T (K & I & N). destruct (untouched_keeps d d' U K I) as [K' I'].
  repeat split; try apply K'; auto. unfold tag_names_unique. now rewrite T.
Qed.

Lemma update_rows_consistent (p : Note.t -> bool) (f : Note.t -> Note.t)
    (d : Database) :
  (forall n, Note.id (f n) = Note.id n) ->
  consistent d -> consistent (update_rows p f d).
Proof.
  intros Hf (K & I & N).
  destruct (update_rows_keeps p f d Hf K I) as [K' I'].
  repeat split; try apply K'; auto.
Qed.

Lemma delete_rows_consistent (p : Note.t -> bool) (d : Database) :
  consistent d -> consistent (delete_rows p d).
Proof.
  intros (K & I & N). destruct (delete_rows_keeps p d K I) as [K' I'].
  repeat split; try apply K'; auto.
Qed.

Lemma create_note_consistent (folder_id : option Z) (title : string) (now : Z)
    (d : Database) :
  consistent d -> consistent (fst (create_note folder_id title now d)).
Proof.
  intros C. unfold create_note. destruct (folder_ref_ok folder_id d); [|exact C].
  destruct C as ([N B] & I & T). cbn [fst]. repeat split.
  - cbn [notes set_notes_fts set_seq_notes set_notes]. rewrite map_app.
    apply NoDup_app; repeat split; [exact N|repeat constructor; intros []|].
    cbn [map Note.id]. intros x Hx [<-|[]].
    apply in_map_iff in Hx as (n & E & Hn).
    rewrite Forall_forall in B. specialize (B n Hn). lia.
  - cbn [notes seq_notes set_notes_fts set_seq_notes set_notes].
    apply Forall_app. split.
    + eapply Forall_impl; [|exact B]. cbn beta. intros; lia.
    + repeat constructor. cbn [Note.id]. lia.
  - unfold index_synced, notes_ai, fts_insert.
    cbn [notes notes_fts set_notes_fts set_seq_notes set_notes].
    rewrite map_app. now apply Permutation_app_tail.
  - exact T.
Qed.

Lemma step_consistent (d : Database) (o : op) :
  consistent d -> consistent (step d o).
Proof.
  intros C. destruct o; cbn [step].
  - unfold create_folder. destruct (existsb _ _); [exact C|].
    apply (consistent_frame d); [repeat split|reflexivity|exact C].
  - unfold rename_folder. destruct (negb _); [exact C|].
    destruct (existsb _ _); [exact C|].
    apply (consistent_frame d); [repeat split|reflexivity|exact C].
  - unfold delete_folder. destruct (folder_exists _ _); [|exact C].
    cbn [fst]. apply update_rows_consistent; [reflexivity|].
    apply (consistent_frame d); [repeat split|reflexivity|exact C].
  - now apply create_note_consistent.
  - unfold update_note. destruct (negb _); [exact C|].
    destruct (folder_ref_ok _ _); [|exact C].
    cbn [fst]. now apply update_rows_consistent.
  - cbn [delete_note fst]. now apply delete_rows_consistent.
  - unfold move_note. destruct (negb _); [exact C|].
    destruct (folder_ref_ok _ _); [|exact C].
    cbn [fst]. now apply update_rows_consistent.
  - destruct (set_note_tags_keeps note_id tag_names d) as [U T].
    destruct C as (K & I & N). destruct (untouched_keeps _ _ U K I) as [K' I'].
    repeat split; try apply K'; auto.
  - destruct C as (K & I & N).
    repeat split; try apply K; auto.
    unfold tag_names_unique, clean_unused_tags. cbn [tags set_tags].
    now apply NoDup_map_filter.
  - unfold init_schema. destruct (0 <? _); [|exact C].
    destruct (_ =? 0); [|exact C].
    destruct C as (K & I & N). repeat split; try apply K; auto.
    unfold index_synced, rebuild. cbn [notes notes_fts set_notes_fts].
    reflexivity.
Qed.

Lemma run_consistent (ops : list op) :
  forall d, consistent d -> consistent (run ops d).
Proof.
  induction ops as [|o ops IH]; intros d C; [exact C|].
  cbn [run fold_left]. apply IH. now apply step_consistent.
Qed.

Lemma empty_db_consistent : consistent empty_db.
Proof. repeat split; cbn; constructor. Qed.

(** The startup rebuild brings the index back from the notes alone. *)
Lemma rebuild_index_synced (d : Database) : index_synced (rebuild d).
Proof. unfold index_synced, rebuild. cbn. reflexivity. Qed.

(** *** One row at a time *)

Lemma fold_no_row {S} (g : Note.t -> S -> S) (k : Z) (l : list Note.t) (s : S) :
  ~ In k (map Note.id l) ->
  fold_left (fun s m => if Note.id m =? k then g m s else s) l s = s.
Proof.
  revert s. induction l as [|m l IH]; intros s H; [reflexivity|].
  cbn [fold_left]. cbn [map] in H.
  destruct (Z.eqb_spec (Note.id m) k) as [E|E]; [exfalso; apply H; now left|].
  apply IH. intros Hin. apply H. now right.
Qed.

Lemma fold_one_row {S} (g : Note.t -> S -> S) (n : Note.t) (l : list Note.t) (s : S) :
  NoDup (map Note.id l) -> In n l ->
  fold_left (fun s m => if Note.id m =? Note.id n then g m s else s) l s = g n s.
Proof.
  revert s. induction l as [|m l IH]; intros s N Hin; [contradiction|].
  cbn [fold_left]. cbn [map] in N. inversion N as [|? ? Hm N']; subst.
  destruct Hin as [->|Hin].
  - rewrite Z.eqb_refl. now apply fold_no_row.
  - destruct (Z.eqb_spec (Note.id m) (Note.id n)) as [E|E].
    + exfalso. apply Hm. rewrite E. now apply in_map.
    + now apply IH.
Qed.

Lemma filter_rowid_entry (n : Note.t) (l : list Note.t) :
  NoDup (map Note.id l) -> In n l ->
  filter (fun e => Fts.rowid e =? Note.id n) (map fts_entry l) = [fts_entry n].
Proof.
  induction l as [|m l IH]; intros N Hin; [contradiction|].
  cbn [map] in *. inversion N as [|? ? Hm N']; subst.
  cbn [filter fts_entry Fts.rowid]. destruct Hin as [->|Hin].
  - rewrite Z.eqb_refl. f_equal. apply filter_none.
    intros e He. apply in_map_iff in He as (x & <- & Hx).
    cbn [fts_entry Fts.rowid]. apply Z.eqb_neq. intros E. apply Hm.
    rewrite <- E. now apply in_map.
  - destruct (Z.eqb_spec (Note.id m) (Note.id n)) as [E|E].
    + exfalso. apply Hm. rewrite E. now apply in_map.
    + now apply IH.
Qed.

(** C1: after any sequence of calls on a fresh store, every note has
    exactly one index entry, made of its current title and content, and
    every index entry belongs to a note that is still there; creating a
    note appends its entry, updating a note takes its old entry out and
    appends the new one, deleting a note takes its entry out, all inside
    the call that changes the note. *)
Theorem C1_index_follows_notes :
  forall ops : list op,
  let d := run ops empty_db in
  (forall n, In n (notes d) ->
     filter (fun e => Fts.rowid e =? Note.id n) (notes_fts d) = [fts_entry n]) /\
  (forall e, In e (notes_fts d) -> exists n, In n (notes d) /\ e = fts_entry n) /\
  (forall folder_id title now d' id,
     create_note folder_id title now d = (d', Ok id) ->
     notes_fts d' = notes_fts d ++ [Fts.mk id title EmptyString]) /\
  (forall n title content folder_id now d',
     In n (notes d) ->
     update_note (Note.id n) title content folder_id now d = (d', Ok tt) ->
     notes_fts d'
     = fts_delete (fts_entry n) (notes_fts d) ++ [Fts.mk (Note.id n) title content]) /\
  (forall n d',
     In n (notes d) ->
     delete_note (Note.id n) d = (d', Ok tt) ->
     notes_fts d' = fts_delete (fts_entry n) (notes_fts d)
     /\ ~ In (Note.id n) (map Fts.rowid (notes_fts d'))).
Proof.
  intros ops d.
  pose proof (run_consistent ops empty_db empty_db_consistent) as C.
  fold d in C. destruct C as ([N B] & I & T).
  assert (forall n, In n (notes d) -> note_exists (Note.id n) d = true) as Ex.
  { intros n Hn. apply existsb_exists. exists n. now rewrite Z.eqb_refl. }
  split; [|split; [|split; [|split]]].
  - intros n Hn.
    pose proof (filter_Permutation (fun e => Fts.rowid e =? Note.id n) _ _ I) as P.
    rewrite (filter_rowid_entry n (notes d) N Hn) in P.
    symmetry in P. now apply Permutation_length_1_inv in P.
  - intros e He. apply (Permutation_in _ I) in He.
    apply in_map_iff in He as (n & <- & Hn). now exists n.
  - intros folder_id title now d' id. unfold create_note.
    destruct (folder_ref_ok folder_id d); [|discriminate].
    intros E. inversion E. reflexivity.
  - intros n title content folder_id now d' Hn. unfold update_note.
    rewrite (Ex n Hn). cbn [negb].
    destruct (folder_ref_ok folder_id d); [|discriminate].
    intros E. inversion E. unfold update_rows. cbn [notes_fts set_notes_fts].
    rewrite (fold_one_row (fun m => notes_au m _) n (notes d) _ N Hn).
    reflexivity.
  - intros n d' Hn E. cbn [delete_note] in E. inversion E as [E'].
    split.
    + unfold delete_rows. cbn [notes_fts set_notes_fts].
      now rewrite (fold_one_row notes_ad n (notes d) _ N Hn).
    + destruct (delete_rows_keeps (fun m => Note.id m =? Note.id n) d
                  (conj N B) I) as [_ I'].
      intros H. apply in_map_iff in H as (e & Hr & He).
      apply (Permutation_in _ I') in He.
      apply in_map_iff in He as (m & <- & Hm).
      unfold delete_rows in Hm. cbn [notes set_notes set_notes_fts set_note_tags_table] in Hm.
      apply filter_In in Hm as [_ Hm]. cbn [fts_entry Fts.rowid] in Hr.
      rewrite Hr, Z.eqb_refl in Hm. discriminate.
Qed.

Lemma C1_witness :
  let d := run [CreateNote None "draft"%string 10;
                CreateNote None "todo"%string 11;
                DeleteNote 1;
                UpdateNote 2 "todo"%string "milk"%string None 12] empty_db in
  let n := Note.mk 2 None "todo"%string "milk"%string 11 12 in
  In n (notes d) /\
  filter (fun e => Fts.rowid e =? 2) (notes_fts d)
  = [Fts.mk 2 "todo"%string "milk"%string] /\
  notes_fts (fst (delete_note 2 d)) = [].
Proof.
  intros d n.
  pose proof (C1_index_follows_notes
                [CreateNote None "draft"%string 10;
                 CreateNote None "todo"%string 11;
                 DeleteNote 1;
                 UpdateNote 2 "todo"%string "milk"%string None 12]) as H.
  cbv zeta in H. fold d in H. destruct H as (H1 & _ & _ & _ & H5).
  assert (In n (notes d)) as Hn by (left; reflexivity).
  split; [exact Hn|]. split.
  - exact (H1 n Hn).
  - destruct (H5 n (fst (delete_note 2 d)) Hn eq_refl) as [E _].
    rewrite E. reflexivity.
Defined.

(** ** Tags *)

Lemma set_note_tags_reuses (note_id : Z) (tag_names : list string)
    (d d' : Database) (t : Tag.t) :
  tag_names_unique d ->
  In t (tags d) -> In (Tag.name t) (clean_names tag_names) ->
  set_note_tags note_id tag_names d = (d', Ok tt) ->
  In t (tags d') /\ has_link note_id (Tag.id t) d' = true.
Proof.
  intros U Ht Hname. unfold set_note_tags, intern_tags.
  fold (intern_from (clean_names tag_names) (d, [])).
  pose proof (intern_from_frame (clean_names tag_names) (d, [])) as H.
  destruct (intern_from (clean_names tag_names) (d, [])) as [d1 ids].
  cbn [fst snd] in H. destruct H as (_ & _ & (extra & Et) & _ & U1 & G).
  destruct (G _ Hname) as (t0 & Ht0 & En & Hid).
  assert (In t (tags d1)) as Ht1 by (rewrite Et; apply in_or_app; now left).
  assert (t0 = t) as ->
      by (apply (NoDup_map_eq Tag.name (tags d1)); auto; apply U1, U).
  set (d2 := set_note_tags_table _ d1).
  pose proof (link_tags_frame note_id ids d2) as L.
  destruct (link_tags note_id ids d2) as [d3 [u|e]]; [|discriminate].
  cbn [fst snd] in L. destruct L as (_ & T & _ & Hl).
  intros E. inversion E. subst d'.
  specialize (Hl u eq_refl (Tag.id t) Hid).
  split; [|exact Hl].
  unfold clean_unused_tags. cbn [tags set_tags]. apply filter_In.
  split; [now rewrite T|].
  unfold has_link in Hl. apply existsb_exists in Hl as (l & Hin & Hl).
  apply andb_prop in Hl as [_ Hl]. apply existsb_exists. now exists l.
Qed.

(** X1: a call of [set_note_tags] that returns leaves no tag without a
    link, so [all_tags] lists none with usage count 0. *)
Lemma set_note_tags_sweeps (note_id : Z) (tag_names : list string)
    (d d' : Database) :
  set_note_tags note_id tag_names d = (d', Ok tt) ->
  forall u, In u (all_tags d') -> 0 < TagUsage.usage_count u.
Proof.
  unfold set_note_tags. destruct (intern_tags _ d) as [d1 ids].
  destruct (link_tags _ _ _) as [d3 [x|e]]; [|discriminate].
  intros E. inversion E. subst d'. clear E. intros u Hu.
  unfold all_tags in Hu. apply in_map_iff in Hu as (t & <- & Ht).
  apply sort_by_In in Ht. unfold clean_unused_tags in Ht. cbn [tags set_tags] in Ht.
  apply filter_In in Ht as [_ Ht]. apply existsb_exists in Ht as (l & Hl & El).
  cbn [TagUsage.usage_count]. unfold usage, clean_unused_tags.
  cbn [note_tags set_tags].
  assert (In l (filter (fun l => NoteTag.tag_id l =? Tag.id t) (note_tags d3))) as Hin
      by (apply filter_In; auto).
  destruct (filter _ (note_tags d3)); [contradiction|].
  cbn [List.length]. lia.
Qed.

Lemma set_note_tags_sweeps_witness :
  let d := run [CreateNote None "one"%string 1;
                CreateNote None "two"%string 2;
                SetNoteTags 1 ["red"%string; "blue"%string];
                SetNoteTags 2 ["blue"%string]] empty_db in
  let u := TagUsage.mk 2 "blue"%string 1 in
  (set_note_tags 1 ["green"%string] d
   = (fst (set_note_tags 1 ["green"%string] d), Ok tt)
   /\ In u (all_tags (fst (set_note_tags 1 ["green"%string] d)))) /\
  0 < TagUsage.usage_count u.
Proof.
  intros d u.
  assert (set_note_tags 1 ["green"%string] d
          = (fst (set_note_tags 1 ["green"%string] d), Ok tt)) as E
      by reflexivity.
  assert (In u (all_tags (fst (set_note_tags 1 ["green"%string] d)))) as Hu
      by (left; reflexivity).
  split; [split; assumption|].
  exact (set_note_tags_sweeps 1 ["green"%string] d _ E u Hu).
Defined.

(** C2 (as the code has it): tag names are unique as exact strings.
    After any sequence of calls no two tags have the same name, and a
    name given to [set_note_tags] that equals an existing tag's name,
    character for character, links the note to that very tag, which
    stays the only tag of that name. *)
Theorem C2_tag_names_unique_exactly :
  forall ops : list op,
  let d := run ops empty_db in
  tag_names_unique d /\
  (forall note_id tag_names t d',
     In t (tags d) ->
     In (Tag.name t) (clean_names tag_names) ->
     set_note_tags note_id tag_names d = (d', Ok tt) ->
     In t (tags d') /\
     has_link note_id (Tag.id t) d' = true /\
     (forall t', In t' (tags d') -> Tag.name t' = Tag.name t -> t' = t)).
Proof.
  intros ops d.
  pose proof (run_consistent ops empty_db empty_db_consistent) as C.
  fold d in C. destruct C as (_ & _ & U).
  split; [exact U|].
  intros note_id tag_names t d' Ht Hn E.
  destruct (set_note_tags_reuses note_id tag_names d d' t U Ht Hn E) as [Ht' Hl].
  split; [exact Ht'|]. split; [exact Hl|].
  intros t' Hin En.
  pose proof (set_note_tags_keeps note_id tag_names d) as K.
  cbv zeta in K. rewrite E in K. cbn [fst] in K. destruct K as [_ K].
  apply (NoDup_map_eq Tag.name (tags d')); auto. apply K, U.
Qed.

Lemma C2_witness :
  let d := run [CreateNote None "one"%string 1;
                CreateNote None "two"%string 2;
                SetNoteTags 1 ["Work"%string]] empty_db in
  let t := Tag.mk 1 "Work"%string in
  (In t (tags d) /\ In (Tag.name t) (clean_names [" Work "%string])) /\
  In t (tags (fst (set_note_tags 2 [" Work "%string] d))) /\
  has_link 2 1 (fst (set_note_tags 2 [" Work "%string] d)) = true.
Proof.
  intros d t.
  assert (In t (tags d)) as Ht by (left; reflexivity).
  assert (In (Tag.name t) (clean_names [" Work "%string])) as Hn
      by (left; reflexivity).
  split; [split; assumption|].
  destruct (C2_tag_names_unique_exactly
              [CreateNote None "one"%string 1;
               CreateNote None "two"%string 2;
               SetNoteTags 1 ["Work"%string]]) as [_ H].
  destruct (H 2 [" Work "%string] t _ Ht Hn eq_refl) as (A & B & _).
  split; [exact A|exact B].
Defined.

(** C2 as stated fails: two tags whose names differ only in letter case
    live side by side, and the second name got a tag of its own. *)
Lemma C2_counterexample :
  let d := run [CreateNote None "one"%string 1;
                CreateNote None "two"%string 2;
                SetNoteTags 1 ["Work"%string];
                SetNoteTags 2 ["work"%string]] empty_db in
  tags d = [Tag.mk 1 "Work"%string; Tag.mk 2 "work"%string] /\
  nocase "Work"%string = nocase "work"%string /\
  ~ tag_names_nocase_unique d /\
  has_link 2 1 d = false /\ has_link 2 2 d = true.
Proof.
  intros d. split; [reflexivity|]. split; [reflexivity|].
  split; [|split; reflexivity].
  intros N. unfold tag_names_nocase_unique in N.
  change (NoDup ["work"%string; "work"%string]) in N.
  inversion N as [|? ? Hn _]. apply Hn. now left.
Qed.

(** C3: deleting the note that was a tag's last referencer.  The links
    go with the note, the tag stays, and [all_tags] lists it with usage
    count 0: [delete_note] runs no sweep, where [set_note_tags] does. *)
Theorem C3_delete_note_leaves_unused_tag :
  let d := run [CreateNote None "trip"%string 5;
                SetNoteTags 1 ["travel"%string]] empty_db in
  all_tags d = [TagUsage.mk 1 "travel"%string 1] /\
  delete_note 1 d
  = (mkDatabase [] [] [Tag.mk 1 "travel"%string] [] [] 0 1 1, Ok tt) /\
  all_tags (fst (delete_note 1 d)) = [TagUsage.mk 1 "travel"%string 0].
Proof.
  cbv zeta. split; [|split]; vm_compute; reflexivity.
Qed.

(** ** Folders *)

(** C9 (as the code has it): creating a folder whose name equals an
    existing folder's name, character for character, fails with the
    integrity error and leaves the store as it was; any other name, one
    that differs only in letter case included, creates the folder under
    the next id. *)
Theorem C9_create_folder_exact_duplicate :
  forall (name : string) (d : Database),
  (In name (map Folder.name (folders d)) ->
   create_folder name d = (d, Raise IntegrityError)) /\
  (~ In name (map Folder.name (folders d)) ->
   exists d',
     create_folder name d = (d', Ok (seq_folders d + 1)) /\
     folders d' = folders d ++ [Folder.mk (seq_folders d + 1) name] /\
     notes d' = notes d /\ tags d' = tags d /\ note_tags d' = note_tags d /\
     notes_fts d' = notes_fts d).
Proof.
  intros name d. unfold create_folder. split; intros H.
  - assert (existsb (fun f => String.eqb (Folder.name f) name) (folders d) = true)
      as E; [|now rewrite E].
    apply in_map_iff in H as (f & En & Hf). apply existsb_exists.
    exists f. split; [exact Hf|]. now apply String.eqb_eq.
  - destruct (existsb _ (folders d)) eqn:E.
    + exfalso. apply H. apply existsb_exists in E as (f & Hf & En).
      apply String.eqb_eq in En. rewrite <- En. now apply in_map.
    + eexists. split; [reflexivity|]. repeat split.
Qed.

Lemma C9_witness :
  let d := fst (create_folder "Work"%string empty_db) in
  In "Work"%string (map Folder.name (folders d)) /\
  create_folder "Work"%string d = (d, Raise IntegrityError).
Proof.
  intros d.
  assert (In "Work"%string (map Folder.name (folders d))) as H
      by (left; reflexivity).
  split; [exact H|].
  now apply (C9_create_folder_exact_duplicate "Work"%string d).
Defined.

(** C9 as stated fails: a name that collides with an existing one only
    when letter case is ignored is accepted, and a second folder
    appears. *)
Lemma C9_counterexample :
  let d := fst (create_folder "Work"%string empty_db) in
  folders d = [Folder.mk 1 "Work"%string] /\
  nocase "work"%string = nocase "Work"%string /\
  snd (create_folder "work"%string d) = Ok 2 /\
  folders (fst (create_folder "work"%string d))
  = [Folder.mk 1 "Work"%string; Folder.mk 2 "work"%string].
Proof.
  cbv zeta. repeat split.
Qed.

(** C6: deleting a folder that exists deletes no note.  Every note that
    referred to it is still there with its folder reference cleared and
    its other fields as they were, every other note is untouched, no
    note refers to the folder any more, tags and links are as before,
    and the folder is gone from the listing. *)
Theorem C6_delete_folder_keeps_notes :
  forall (folder_id : Z) (d : Database),
  folder_exists folder_id d = true ->
  let d' := fst (delete_folder folder_id d) in
  snd (delete_folder folder_id d) = Ok tt /\
  map Note.id (notes d') = map Note.id (notes d) /\
  (forall n, In n (notes d) -> refers_to folder_id n = true ->
     In (Note.mk (Note.id n) None (Note.title n) (Note.content n)
                 (Note.created_at n) (Note.updated_at n)) (notes d')) /\
  (forall n, In n (notes d) -> refers_to folder_id n = false -> In n (notes d')) /\
  (forall n', In n' (notes d') -> refers_to folder_id n' = false) /\
  tags d' = tags d /\ note_tags d' = note_tags d /\
  ~ In folder_id (map Folder.id (list_folders d')).
Proof.
  intros folder_id d Hex. unfold delete_folder. rewrite Hex. cbn [fst snd].
  unfold update_rows. cbn [notes tags note_tags folders set_notes set_notes_fts set_folders].
  split; [reflexivity|].
  split; [|split; [|split; [|split; [|split; [|split]]]]]; try reflexivity.
  - rewrite map_map. apply map_ext. intros n.
    now destruct (refers_to folder_id n).
  - intros n Hn Hr. apply in_map_iff. exists n. now rewrite Hr.
  - intros n Hn Hr. apply in_map_iff. exists n. now rewrite Hr.
  - intros n' Hn'. apply in_map_iff in Hn' as (n & <- & Hn).
    destruct (refers_to folder_id n) eqn:Hr; [reflexivity|exact Hr].
  - intros H. apply in_map_iff in H as (f & E & Hf).
    unfold list_folders in Hf. apply sort_by_In in Hf.
    cbn [folders] in Hf. apply filter_In in Hf as [_ Hf].
    rewrite E, Z.eqb_refl in Hf. discriminate.
Qed.

Lemma C6_witness :
  let d := run [CreateFolder "F"%string;
                CreateNote (Some 1) "N1"%string 3;
                CreateNote (Some 1) "N2"%string 4;
                CreateNote None "N3"%string 5] empty_db in
  folder_exists 1 d = true /\
  notes (fst (delete_folder 1 d))
  = [Note.mk 1 None "N1"%string EmptyString 3 3;
     Note.mk 2 None "N2"%string EmptyString 4 4;
     Note.mk 3 None "N3"%string EmptyString 5 5] /\
  ~ In 1 (map Folder.id (list_folders (fst (delete_folder 1 d)))).
Proof.
  intros d. split; [reflexivity|]. split; [reflexivity|].
  apply (C6_delete_folder_keeps_notes 1 d). reflexivity.
Defined.

(** ** Timestamps *)

Lemma find_last {A} (p : A -> bool) (l : list A) (a : A) :
  (forall x, In x l -> p x = false) -> p a = true ->
  find p (l ++ [a]) = Some a.
Proof.
  induction l as [|x l IH]; intros H Ha; cbn [app find].
  - now rewrite Ha.
  - rewrite (H x (or_introl eq_refl)). apply IH; auto.
    intros y Hy. apply H. now right.
Qed.

Lemma find_rewritten (f : Note.t -> Note.t) (n : Note.t) (l : list Note.t) :
  (forall m, Note.id (f m) = Note.id m) ->
  NoDup (map Note.id l) -> In n l ->
  find (fun m => Note.id m =? Note.id n)
       (map (fun m => if Note.id m =? Note.id n then f m else m) l)
  = Some (f n).
Proof.
  intros Hf. induction l as [|m l IH]; intros N Hin; [contradiction|].
  cbn [map] in *. inversion N as [|? ? Hm N']; subst. cbn [find].
  destruct Hin as [->|Hin].
  - now rewrite Z.eqb_refl, Hf, Z.eqb_refl.
  - destruct (Z.eqb_spec (Note.id m) (Note.id n)) as [E|E].
    + exfalso. apply Hm. rewrite E. now apply in_map.
    + apply Z.eqb_neq in E. rewrite E. now apply IH.
Qed.

(** C8 (as the code has it): a new note has [created_at] and
    [updated_at] both equal to the clock reading of its creation; an
    update keeps [created_at] and sets [updated_at] to the clock reading
    of the update, whatever the stored value was. *)
Theorem C8_timestamps :
  forall ops : list op,
  let d := run ops empty_db in
  (forall folder_id title now d' id,
     create_note folder_id title now d = (d', Ok id) ->
     get_note id d' = Some (Note.mk id folder_id title EmptyString now now)) /\
  (forall n title content folder_id now d',
     In n (notes d) ->
     update_note (Note.id n) title content folder_id now d = (d', Ok tt) ->
     get_note (Note.id n) d'
     = Some (Note.mk (Note.id n) folder_id title content (Note.created_at n) now)).
Proof.
  intros ops d.
  pose proof (run_consistent ops empty_db empty_db_consistent) as C.
  fold d in C. destruct C as ([N B] & _ & _).
  split.
  - intros folder_id title now d' id. unfold create_note.
    destruct (folder_ref_ok folder_id d); [|discriminate].
    intros E. inversion E. unfold get_note.
    cbn [notes set_notes_fts set_seq_notes set_notes].
    apply find_last; [|apply Z.eqb_refl].
    intros x Hx. rewrite Forall_forall in B. specialize (B x Hx).
    apply Z.eqb_neq. lia.
  - intros n title content folder_id now d' Hn. unfold update_note.
    assert (note_exists (Note.id n) d = true) as Ex.
    { apply existsb_exists. exists n. now rewrite Z.eqb_refl. }
    rewrite Ex. cbn [negb].
    destruct (folder_ref_ok folder_id d); [|discriminate].
    intros E. inversion E. unfold get_note, update_rows.
    cbn [notes set_notes_fts set_notes].
    now rewrite (find_rewritten _ n (notes d)).
Qed.

Lemma C8_witness :
  let d := run [CreateNote None EmptyString 100] empty_db in
  let n := Note.mk 1 None EmptyString EmptyString 100 100 in
  In n (notes d) /\
  get_note 1 (fst (update_note 1 EmptyString "body"%string None 160 d))
  = Some (Note.mk 1 None EmptyString "body"%string 100 160).
Proof.
  intros d n.
  assert (In n (notes d)) as Hn by (left; reflexivity).
  split; [exact Hn|].
  destruct (C8_timestamps [CreateNote None EmptyString 100]) as [_ H].
  exact (H n EmptyString "body"%string None 160 _ Hn eq_refl).
Defined.

(** C8 as stated fails: the clock counts whole seconds, and an update in
    the second of the creation leaves [updated_at] where it was. *)
Lemma C8_counterexample :
  let d1 := fst (create_note None EmptyString 100 empty_db) in
  let d2 := fst (update_note 1 EmptyString "body"%string None 100 d1) in
  option_map Note.updated_at (get_note 1 d1) = Some 100 /\
  option_map Note.content (get_note 1 d2) = Some "body"%string /\
  option_map Note.updated_at (get_note 1 d2) = Some 100 /\
  ~ (100 < 100).
Proof.
  cbv zeta. repeat split. lia.
Qed.

(** ** Stripping *)

Lemma rstrip_idem (s : string) : rstrip (rstrip s) = rstrip s.
Proof.
  induction s as [|c r IH]; [reflexivity|].
  cbn [rstrip]. destruct (is_space c && is_empty (rstrip r)) eqn:E;
    [reflexivity|].
  cbn [rstrip]. now rewrite IH, E.
Qed.

Lemma lstrip_head (s : string) :
  lstrip s = EmptyString
  \/ exists c r, lstrip s = String c r /\ is_space c = false.
Proof.
  induction s as [|c r IH]; [now left|].
  cbn [lstrip]. destruct (is_space c) eqn:E; [exact IH|].
  right. now exists c, r.
Qed.

Lemma strip_head (s : string) :
  strip s = EmptyString
  \/ exists c r, strip s = String c r /\ is_space c = false.
Proof.
  unfold strip. destruct (lstrip_head s) as [E|(c & r & E & Hc)]; rewrite E.
  - now left.
  - right. cbn [rstrip]. rewrite Hc. cbn [andb]. now exists c, (rstrip r).
Qed.

Lemma strip_idem (s : string) : strip (strip s) = strip s.
Proof.
  assert (lstrip (strip s) = strip s) as L.
  { destruct (strip_head s) as [E|(c & r & E & Hc)]; rewrite E;
      [reflexivity|]. cbn [lstrip]. now rewrite Hc. }
  unfold strip at 1. rewrite L. unfold strip. apply rstrip_idem.
Qed.

Lemma rstrip_last (s : string) :
  forall c r, rstrip s = String c r ->
  exists c' pre, rstrip s = (pre ++ String c' EmptyString)%string
                 /\ is_space c' = false.
Proof.
  induction s as [|a s IH]; intros c r E; [discriminate|].
  cbn [rstrip] in *. destruct (is_space a && is_empty (rstrip s)) eqn:B;
    [discriminate|].
  destruct (rstrip s) as [|b t] eqn:R.
  - cbn [is_empty] in B. rewrite andb_true_r in B.
    exists a, EmptyString. now split.
  - destruct (IH b t eq_refl) as (c' & pre & E' & Hc').
    exists c', (String a pre). rewrite E'. now split.
Qed.

(** A stripped string is empty, or begins and ends with characters that
    are not white space. *)
Lemma strip_ends (s : string) :
  strip s = EmptyString
  \/ (exists c r, strip s = String c r /\ is_space c = false)
     /\ (exists c' pre, strip s = (pre ++ String c' EmptyString)%string
                        /\ is_space c' = false).
Proof.
  destruct (strip_head s) as [E|(c & r & E & Hc)]; [now left|].
  right. split; [now exists c, r|].
  unfold strip in *. now apply (rstrip_last _ c r).
Qed.

Lemma clean_names_spec (tag_names : list string) (name : string) :
  In name (clean_names tag_names)
  <-> exists raw, In raw tag_names /\ strip raw = name /\ is_empty name = false.
Proof.
  unfold clean_names. rewrite in_map_iff. split.
  - intros (raw & E & H). apply filter_In in H as [H B].
    exists raw. subst name. repeat split; auto. now apply negb_true_iff.
  - intros (raw & H & E & B). exists raw. split; [exact E|].
    apply filter_In. split; [exact H|]. subst name. now rewrite B.
Qed.

Lemma clean_names_clean (tag_names : list string) (name : string) :
  In name (clean_names tag_names) ->
  strip name = name /\ is_empty name = false.
Proof.
  intros H. apply clean_names_spec in H as (raw & _ & <- & B).
  split; [apply strip_idem|exact B].
Qed.

(** ** Keys and references *)

Lemma existsb_key {Row} (key : Row -> Z) (k : Z) (rows : list Row) :
  existsb (fun r => key r =? k) rows = true <-> In k (map key rows).
Proof.
  rewrite existsb_exists, in_map_iff. split; intros (r & A & B).
  - apply Z.eqb_eq in B. now exists r.
  - exists r. split; [exact B|]. now apply Z.eqb_eq.
Qed.

Lemma existsb_same_keys {Row} (key : Row -> Z) (k : Z) (rows rows' : list Row) :
  map key rows' = map key rows ->
  existsb (fun r => key r =? k) rows' = existsb (fun r => key r =? k) rows.
Proof.
  intros E. apply eq_true_iff_eq. now rewrite !existsb_key, E.
Qed.

Lemma intern_from_others (names : list string) :
  forall st,
    folders_untouched (fst st) (fst (intern_from names st))
    /\ seq_tags (fst st) <= seq_tags (fst (intern_from names st)).
Proof.
  induction names as [|name names IH]; intros st; cbn [intern_from fold_left].
  - repeat split. lia.
  - fold (intern_from names (intern_tag name st)).
    destruct (IH (intern_tag name st)) as ((A & B) & C).
    assert (folders_untouched (fst st) (fst (intern_tag name st))
            /\ seq_tags (fst st) <= seq_tags (fst (intern_tag name st))) as (( A' & B') & C').
    { destruct st as [d ids]. unfold intern_tag.
      destruct (existsb _ (tags d)).
      - destruct (find _ (tags d)); cbn [fst]; repeat split; lia.
      - cbn. repeat split; lia. }
    repeat split; try congruence. lia.
Qed.

Lemma link_tags_others (note_id : Z) (tag_ids : list Z) :
  forall d,
    folders_untouched d (fst (link_tags note_id tag_ids d))
    /\ seq_tags (fst (link_tags note_id tag_ids d)) = seq_tags d.
Proof.
  induction tag_ids as [|tid rest IH]; intros d; cbn [link_tags].
  - repeat split.
  - destruct (has_link note_id tid d); [apply IH|].
    destruct (note_exists note_id d && tag_exists tid d); [|repeat split].
    destruct (IH (set_note_tags_table (note_tags d ++ [NoteTag.mk note_id tid]) d))
      as ((A & B) & C).
    repeat split; assumption.
Qed.

Lemma set_note_tags_others (note_id : Z) (tag_names : list string) (d : Database) :
  folders_untouched d (fst (set_note_tags note_id tag_names d)).
Proof.
  unfold set_note_tags, intern_tags.
  fold (intern_from (clean_names tag_names) (d, [])).
  destruct (intern_from_others (clean_names tag_names) (d, [])) as ((A & B) & _).
  destruct (intern_from (clean_names tag_names) (d, [])) as [d1 ids].
  cbn [fst] in A, B.
  set (d2 := set_note_tags_table _ d1).
  destruct (link_tags_others note_id ids d2) as ((A' & B') & _).
  destruct (link_tags note_id ids d2) as [d3 [u|e]]; cbn [fst] in *;
    subst d2; cbn in A', B'; split; cbn; congruence.
Qed.

Lemma rename_keeps_names (fid : Z) (name : string) (l : list Folder.t) :
  NoDup (map Folder.id l) -> NoDup (map Folder.name l) ->
  (forall f, In f l -> Folder.id f <> fid -> Folder.name f <> name) ->
  NoDup (map Folder.name
           (map (fun f => if Folder.id f =? fid
                          then Folder.mk (Folder.id f) name else f) l)).
Proof.
  induction l as [|f l IH]; intros Ni Nn H; [constructor|].
  cbn [map] in *. inversion Ni as [|? ? Hi Ni']; subst.
  inversion Nn as [|? ? Hn Nn']; subst.
  assert (forall g, In g l -> Folder.id g <> fid -> Folder.name g <> name) as H'
      by (intros g Hg; apply H; now right).
  constructor; [|now apply IH].
  rewrite map_map. intros Hin. apply in_map_iff in Hin as (g & E & Hg).
  destruct (Z.eqb_spec (Folder.id f) fid) as [Ef|Ef];
    destruct (Z.eqb_spec (Folder.id g) fid) as [Eg|Eg]; cbn [Folder.name] in E.
  - apply Hi. rewrite Ef, <- Eg. now apply in_map.
  - now apply (H' g Hg Eg).
  - apply (H f (or_introl eq_refl) Ef). now symmetry.
  - apply Hn. rewrite <- E. now apply in_map.
Qed.

Lemma step_folders_ok (d : Database) (o : op) :
  folders_keyed d /\ folder_names_unique d ->
  folders_keyed (step d o) /\ folder_names_unique (step d o).
Proof.
  intros [[Ni B] Nn].
  assert (forall d', folders_untouched d d' ->
            folders_keyed d' /\ folder_names_unique d') as Frame.
  { intros d' [E1 E2]. unfold folders_keyed, folder_names_unique.
    rewrite E1, E2. auto. }
  destruct o; cbn [step].
  - unfold create_folder. destruct (existsb _ _) eqn:Ex; [now apply Frame|].
    cbn [fst]. unfold folders_keyed, folder_names_unique.
    cbn [folders seq_folders set_seq_folders set_folders].
    rewrite !map_app. cbn [map Folder.id Folder.name]. repeat split.
    + apply NoDup_app; repeat split; [exact Ni|repeat constructor; intros []|].
      intros x Hx [<-|[]]. apply in_map_iff in Hx as (f & E & Hf).
      rewrite Forall_forall in B. specialize (B f Hf). lia.
    + apply Forall_app. split.
      * eapply Forall_impl; [|exact B]. cbn beta. intros; lia.
      * repeat constructor. cbn [Folder.id]. lia.
    + apply NoDup_app; repeat split; [exact Nn|repeat constructor; intros []|].
      intros x Hx [<-|[]]. apply in_map_iff in Hx as (f & E & Hf).
      assert (existsb (fun f => String.eqb (Folder.name f) name) (folders d) = true)
        as C; [|congruence].
      apply existsb_exists. exists f. split; [exact Hf|]. now apply String.eqb_eq.
  - unfold rename_folder. destruct (negb _); [now apply Frame|].
    destruct (existsb _ _) eqn:Ex; [now apply Frame|].
    cbn [fst]. unfold folders_keyed, folder_names_unique.
    cbn [folders seq_folders set_folders].
    assert (map Folder.id
              (map (fun f => if Folder.id f =? folder_id
                             then Folder.mk (Folder.id f) name else f) (folders d))
            = map Folder.id (folders d)) as Ei.
    { rewrite map_map. apply map_ext. intros f.
      now destruct (Folder.id f =? folder_id). }
    repeat split.
    + now rewrite Ei.
    + rewrite Forall_forall in *. intros g Hg.
      apply in_map_iff in Hg as (f & <- & Hf). specialize (B f Hf).
      now destruct (Folder.id f =? folder_id).
    + apply rename_keeps_names; auto. intros f Hf Hne En.
      assert (existsb (fun f => negb (Folder.id f =? folder_id)
                                && String.eqb (Folder.name f) name) (folders d) = true)
        as C; [|congruence].
      apply existsb_exists. exists f. split; [exact Hf|].
      apply Z.eqb_neq in Hne. rewrite Hne. now apply String.eqb_eq.
  - unfold delete_folder. destruct (folder_exists _ _); [|now apply Frame].
    cbn [fst]. unfold folders_keyed, folder_names_unique, update_rows.
    cbn [folders seq_folders set_notes_fts set_notes set_folders].
    repeat split.
    + now apply NoDup_map_filter.
    + rewrite Forall_forall in *. intros f Hf. apply filter_In in Hf as [Hf _].
      now apply B.
    + now apply NoDup_map_filter.
  - apply Frame. unfold create_note. destruct (folder_ref_ok _ _); now split.
  - apply Frame. unfold update_note. destruct (negb _); [now split|].
    destruct (folder_ref_ok _ _); now split.
  - apply Frame. now split.
  - apply Frame. unfold move_note. destruct (negb _); [now split|].
    destruct (folder_ref_ok _ _); now split.
  - apply Frame. apply set_note_tags_others.
  - apply Frame. now split.
  - apply Frame. unfold init_schema. destruct (0 <? _); [|now split].
    destruct (_ =? 0); now split.
Qed.

Lemma intern_tag_tags_ok (name : string) (st : Database * list Z) :
  strip name = name /\ is_empty name = false ->
  tags_keyed (fst st) /\ tag_names_clean (fst st) ->
  tags_keyed (fst (intern_tag name st)) /\ tag_names_clean (fst (intern_tag name st)).
Proof.
  intros Hname [[N B] C]. destruct st as [d ids]. unfold intern_tag.
  cbn [fst] in *. destruct (existsb _ (tags d)).
  - destruct (find _ (tags d)); cbn [fst]; (split; [split|]; assumption).
  - cbn [fst]. unfold tags_keyed, tag_names_clean.
    cbn [tags seq_tags set_seq_tags set_tags]. repeat split.
    + rewrite map_app. cbn [map Tag.id].
      apply NoDup_app; repeat split; [exact N|repeat constructor; intros []|].
      intros x Hx [<-|[]]. apply in_map_iff in Hx as (t & E & Ht).
      rewrite Forall_forall in B. specialize (B t Ht). lia.
    + apply Forall_app. split.
      * eapply Forall_impl; [|exact B]. cbn beta. intros; lia.
      * repeat constructor. cbn [Tag.id]. lia.
    + apply in_app_or in H as [H|[<-|[]]]; [now apply C|apply Hname].
    + apply in_app_or in H as [H|[<-|[]]]; [now apply C|apply Hname].
Qed.

Lemma intern_from_tags_ok (names : list string) :
  (forall name, In name names -> strip name = name /\ is_empty name = false) ->
  forall st,
    tags_keyed (fst st) /\ tag_names_clean (fst st) ->
    tags_keyed (fst (intern_from names st))
    /\ tag_names_clean (fst (intern_from names st)).
Proof.
  induction names as [|name names IH]; intros Hn st H; [exact H|].
  cbn [intern_from fold_left]. fold (intern_from names (intern_tag name st)).
  apply IH; [intros x Hx; apply Hn; now right|].
  apply intern_tag_tags_ok; [apply Hn; now left|exact H].
Qed.

Lemma clean_unused_tags_ok (d : Database) :
  tags_keyed d /\ tag_names_clean d ->
  tags_keyed (clean_unused_tags d) /\ tag_names_clean (clean_unused_tags d).
Proof.
  intros [[N B] C]. unfold tags_keyed, tag_names_clean, clean_unused_tags.
  cbn [tags seq_tags set_tags]. repeat split.
  - now apply NoDup_map_filter.
  - rewrite Forall_forall in *. intros t Ht. apply filter_In in Ht as [Ht _].
    now apply B.
  - apply filter_In in H as [H _]. now apply C.
  - apply filter_In in H as [H _]. now apply C.
Qed.

Lemma step_tags_ok (d : Database) (o : op) :
  tags_keyed d /\ tag_names_clean d ->
  tags_keyed (step d o) /\ tag_names_clean (step d o).
Proof.
  intros H.
  assert (forall d', tags d' = tags d -> seq_tags d' = seq_tags d ->
            tags_keyed d' /\ tag_names_clean d') as Frame.
  { intros d' E1 E2. destruct H as [[N B] C].
    unfold tags_keyed, tag_names_clean. rewrite E1, E2. auto. }
  destruct o; cbn [step].
  - unfold create_folder. destruct (existsb _ _); now apply Frame.
  - unfold rename_folder. destruct (negb _); [now apply Frame|].
    destruct (existsb _ _); now apply Frame.
  - unfold delete_folder. destruct (folder_exists _ _); now apply Frame.
  - unfold create_note. destruct (folder_ref_ok _ _); now apply Frame.
  - unfold update_note. destruct (negb _); [now apply Frame|].
    destruct (folder_ref_ok _ _); now apply Frame.
  - now apply Frame.
  - unfold move_note. destruct (negb _); [now apply Frame|].
    destruct (folder_ref_ok _ _); now apply Frame.
  - unfold set_note_tags, intern_tags.
    fold (intern_from (clean_names tag_names) (d, [])).
    pose proof (intern_from_tags_ok (clean_names tag_names)
                  (clean_names_clean tag_names) (d, []) H) as H1.
    destruct (intern_from (clean_names tag_names) (d, [])) as [d1 ids].
    cbn [fst] in H1. set (d2 := set_note_tags_table _ d1).
    pose proof (link_tags_frame note_id ids d2) as L.
    destruct (link_tags_others note_id ids d2) as (_ & S).
    destruct (link_tags note_id ids d2) as [d3 [u|e]]; cbn [fst snd] in *;
      destruct L as (_ & T & _ & _); subst d2;
      cbn [tags seq_tags set_note_tags_table] in T, S.
    + apply clean_unused_tags_ok. destruct H1 as [[N B] C].
      unfold tags_keyed, tag_names_clean. rewrite T, S. auto.
    + destruct H1 as [[N B] C].
      unfold tags_keyed, tag_names_clean. rewrite T, S. auto.
  - now apply clean_unused_tags_ok.
  - unfold init_schema. destruct (0 <? _); [|now apply Frame].
    destruct (_ =? 0); now apply Frame.
Qed.

Lemma has_link_In (note_id tag_id : Z) (d : Database) :
  has_link note_id tag_id d = true
  <-> In (NoteTag.mk note_id tag_id) (note_tags d).
Proof.
  unfold has_link. rewrite existsb_exists. split.
  - intros ([n t] & Hl & E). cbn in E. apply andb_prop in E as [A B].
    apply Z.eqb_eq in A, B. now subst.
  - intros H. eexists. split; [exact H|]. cbn. now rewrite !Z.eqb_refl.
Qed.

Lemma folder_ref_ok_In (r : option Z) (d : Database) :
  folder_ref_ok r d = true
  <-> forall f, r = Some f -> In f (map Folder.id (folders d)).
Proof.
  unfold folder_ref_ok, folder_exists. destruct r as [g|].
  - rewrite existsb_key. split; [intros H f [= <-]; exact H|auto].
  - split; [discriminate|reflexivity].
Qed.

Lemma refs_ok_alt (d : Database) :
  refs_ok d
  <-> (forall n f, In n (notes d) -> Note.folder_id n = Some f ->
         In f (map Folder.id (folders d)))
      /\ (forall l, In l (note_tags d) ->
            In (NoteTag.note_id l) (map Note.id (notes d))
            /\ In (NoteTag.tag_id l) (map Tag.id (tags d)))
      /\ NoDup (note_tags d).
Proof.
  unfold refs_ok, note_exists, tag_exists. split; intros (A & B & C);
    (split; [|split; [|exact C]]).
  - intros n f Hn. now apply folder_ref_ok_In, A.
  - intros l Hl. destruct (B l Hl) as [B1 B2]. now rewrite !existsb_key in *.
  - intros n Hn. apply folder_ref_ok_In. intros f. now apply A.
  - intros l Hl. destruct (B l Hl) as [B1 B2]. now rewrite !existsb_key.
Qed.

Lemma link_tags_refs_ok (note_id : Z) (tag_ids : list Z) :
  forall d, refs_ok d -> refs_ok (fst (link_tags note_id tag_ids d)).
Proof.
  induction tag_ids as [|tid rest IH]; intros d H; cbn [link_tags]; [exact H|].
  destruct (has_link note_id tid d) eqn:Hl; [now apply IH|].
  destruct (note_exists note_id d && tag_exists tid d) eqn:Ex; [|exact H].
  apply IH. apply andb_prop in Ex as [E1 E2].
  destruct H as (A & B & C). split; [exact A|]. split.
  - cbn [note_tags set_note_tags_table]. intros l Hin.
    apply in_app_or in Hin as [Hin|[<-|[]]]; [now apply B|]. now split.
  - cbn [note_tags set_note_tags_table].
    apply NoDup_app; repeat split; [exact C|repeat constructor; intros []|].
    intros l Hin [<-|[]]. apply has_link_In in Hin. congruence.
Qed.

Lemma clean_unused_tags_refs_ok (d : Database) :
  refs_ok d -> refs_ok (clean_unused_tags d).
Proof.
  intros H. apply refs_ok_alt in H as (A & B & C). apply refs_ok_alt.
  unfold clean_unused_tags. cbn [notes folders tags note_tags set_tags].
  split; [exact A|]. split; [|exact C].
  intros l Hl. destruct (B l Hl) as [B1 B2]. split; [exact B1|].
  apply in_map_iff in B2 as (t & E & Ht). apply in_map_iff.
  exists t. split; [exact E|]. apply filter_In. split; [exact Ht|].
  apply existsb_exists. exists l. split; [exact Hl|]. now apply Z.eqb_eq.
Qed.

Lemma set_note_tags_refs_ok (note_id : Z) (tag_names : list string)
    (d : Database) :
  refs_ok d -> refs_ok (fst (set_note_tags note_id tag_names d)).
Proof.
  intros H. unfold set_note_tags, intern_tags.
  fold (intern_from (clean_names tag_names) (d, [])).
  pose proof (intern_from_frame (clean_names tag_names) (d, [])) as F.
  destruct (intern_from_others (clean_names tag_names) (d, [])) as ((Ff & _) & _).
  destruct (intern_from (clean_names tag_names) (d, [])) as [d1 ids].
  cbn [fst snd] in *. destruct F as ((En & _ & _) & El & (extra & Et) & _).
  assert (refs_ok (set_note_tags_table
                     (filter (fun l => negb (NoteTag.note_id l =? note_id))
                             (note_tags d1)) d1)) as H2.
  { apply refs_ok_alt in H as (A & B & C). apply refs_ok_alt.
    cbn [notes folders tags note_tags set_note_tags_table].
    rewrite En, Ff, El, Et. split; [exact A|]. split.
    - intros l Hl. apply filter_In in Hl as [Hl _].
      destruct (B l Hl) as [B1 B2]. split; [exact B1|].
      rewrite map_app. apply in_or_app. now left.
    - now apply NoDup_filter. }
  pose proof (link_tags_refs_ok note_id ids _ H2) as H3.
  destruct (link_tags note_id ids _) as [d3 [u|e]]; cbn [fst] in *;
    [now apply clean_unused_tags_refs_ok|exact H3].
Qed.

Lemma update_rows_refs_ok (p : Note.t -> bool) (f : Note.t -> Note.t)
    (d : Database) :
  (forall n, Note.id (f n) = Note.id n) ->
  (forall n, In n (notes d) -> p n = true ->
     folder_ref_ok (Note.folder_id (f n)) d = true) ->
  refs_ok d -> refs_ok (update_rows p f d).
Proof.
  intros Hid Hf H. apply refs_ok_alt in H as (A & B & C). apply refs_ok_alt.
  unfold update_rows. cbn [notes folders tags note_tags set_notes_fts set_notes].
  assert (map Note.id (map (fun n => if p n then f n else n) (notes d))
          = map Note.id (notes d)) as E.
  { rewrite map_map. apply map_ext. intros n. destruct (p n); auto. }
  split; [|split; [|exact C]].
  - intros n' g Hn' Hg. apply in_map_iff in Hn' as (n & <- & Hn).
    destruct (p n) eqn:Hp; [|now apply (A n)].
    now apply (proj1 (folder_ref_ok_In _ d) (Hf n Hn Hp)).
  - intros l Hl. rewrite E. now apply B.
Qed.

Lemma delete_rows_refs_ok (p : Note.t -> bool) (d : Database) :
  refs_ok d -> refs_ok (delete_rows p d).
Proof.
  intros H. apply refs_ok_alt in H as (A & B & C). apply refs_ok_alt.
  unfold delete_rows.
  cbn [notes folders tags note_tags set_notes_fts set_notes set_note_tags_table].
  split; [|split; [|now apply NoDup_filter]].
  - intros n g Hn. apply filter_In in Hn as [Hn _]. now apply A.
  - intros l Hl. apply filter_In in Hl as [Hl Hkeep].
    destruct (B l Hl) as [B1 B2]. split; [|exact B2].
    apply in_map_iff in B1 as (n & E & Hn). apply in_map_iff.
    exists n. split; [exact E|]. apply filter_In. split; [exact Hn|].
    destruct (p n) eqn:Hp; [|reflexivity]. exfalso.
    apply negb_true_iff in Hkeep.
    assert (existsb (fun n => Note.id n =? NoteTag.note_id l) (filter p (notes d)) = true)
      as X; [|congruence].
    apply existsb_exists. exists n. split; [now apply filter_In|].
    now apply Z.eqb_eq.
Qed.

Lemma step_refs_ok (d : Database) (o : op) :
  refs_ok d -> refs_ok (step d o).
Proof.
  intros H. destruct o; cbn [step].
  - unfold create_folder. destruct (existsb _ _); [exact H|]. cbn [fst].
    apply refs_ok_alt in H as (A & B & C). apply refs_ok_alt.
    cbn [notes folders tags note_tags set_seq_folders set_folders].
    split; [|split; assumption].
    intros n g Hn Hg. rewrite map_app. apply in_or_app. left. now apply (A n).
  - unfold rename_folder. destruct (negb _); [exact H|].
    destruct (existsb _ _); [exact H|]. cbn [fst].
    apply refs_ok_alt in H as (A & B & C). apply refs_ok_alt.
    cbn [notes folders tags note_tags set_folders].
    split; [|split; assumption].
    intros n g Hn Hg. rewrite map_map.
    rewrite (map_ext _ Folder.id); [now apply (A n)|].
    intros x. now destruct (Folder.id x =? folder_id).
  - unfold delete_folder. destruct (folder_exists _ _); [|exact H]. cbn [fst].
    apply refs_ok_alt in H as (A & B & C). apply refs_ok_alt.
    unfold update_rows.
    cbn [notes folders tags note_tags set_notes_fts set_notes set_folders].
    split; [|split; [|exact C]].
    + intros n' g Hn' Hg. apply in_map_iff in Hn' as (n & <- & Hn).
      destruct (refers_to folder_id n) eqn:Hr; [discriminate|].
      pose proof (A n g Hn Hg) as Hin.
      apply in_map_iff in Hin as (x & E & Hx). apply in_map_iff.
      exists x. split; [exact E|]. apply filter_In. split; [exact Hx|].
      unfold refers_to in Hr. rewrite Hg in Hr. now rewrite E, Hr.
    + intros l Hl. destruct (B l Hl) as [B1 B2]. split; [|exact B2].
      rewrite map_map. rewrite (map_ext _ Note.id); [exact B1|].
      intros x. now destruct (refers_to folder_id x).
  - unfold create_note. destruct (folder_ref_ok folder_id d) eqn:Hf; [|exact H].
    cbn [fst]. apply refs_ok_alt in H as (A & B & C). apply refs_ok_alt.
    cbn [notes folders tags note_tags set_notes_fts set_seq_notes set_notes].
    split; [|split; [|exact C]].
    + intros n g Hn Hg. apply in_app_or in Hn as [Hn|[<-|[]]]; [now apply (A n)|].
      cbn [Note.folder_id] in Hg.
      now apply (proj1 (folder_ref_ok_In _ d) Hf).
    + intros l Hl. destruct (B l Hl) as [B1 B2]. split; [|exact B2].
      rewrite map_app. apply in_or_app. now left.
  - unfold update_note. destruct (negb _); [exact H|].
    destruct (folder_ref_ok folder_id d) eqn:Hf; [|exact H]. cbn [fst].
    apply update_rows_refs_ok; auto.
  - cbn [delete_note fst]. now apply delete_rows_refs_ok.
  - unfold move_note. destruct (negb _); [exact H|].
    destruct (folder_ref_ok to_folder_id d) eqn:Hf; [|exact H]. cbn [fst].
    apply update_rows_refs_ok; auto.
  - now apply set_note_tags_refs_ok.
  - now apply clean_unused_tags_refs_ok.
  - unfold init_schema. destruct (0 <? _); [|exact H].
    destruct (_ =? 0); exact H.
Qed.

Lemma intern_from_positive (names : list string) :
  forall st,
    0 <= seq_tags (fst st) /\ Forall (fun t => 0 < Tag.id t) (tags (fst st)) ->
    0 <= seq_tags (fst (intern_from names st))
    /\ Forall (fun t => 0 < Tag.id t) (tags (fst (intern_from names st))).
Proof.
  induction names as [|name names IH]; intros st H; [exact H|].
  cbn [intern_from fold_left]. fold (intern_from names (intern_tag name st)).
  apply IH. destruct st as [d ids]. unfold intern_tag. cbn [fst] in *.
  destruct (existsb _ (tags d)).
  - destruct (find _ (tags d)); exact H.
  - destruct H as [S P]. cbn [fst tags seq_tags set_seq_tags set_tags].
    split; [lia|]. apply Forall_app. split; [exact P|].
    repeat constructor. cbn [Tag.id]. lia.
Qed.

Lemma set_note_tags_positive (note_id : Z) (tag_names : list string)
    (d : Database) :
  0 <= seq_tags d /\ Forall (fun t => 0 < Tag.id t) (tags d) ->
  0 <= seq_tags (fst (set_note_tags note_id tag_names d))
  /\ Forall (fun t => 0 < Tag.id t) (tags (fst (set_note_tags note_id tag_names d))).
Proof.
  intros H. unfold set_note_tags, intern_tags.
  fold (intern_from (clean_names tag_names) (d, [])).
  pose proof (intern_from_positive (clean_names tag_names) (d, []) H) as H1.
  destruct (intern_from (clean_names tag_names) (d, [])) as [d1 ids].
  cbn [fst] in H1. set (d2 := set_note_tags_table _ d1).
  pose proof (link_tags_frame note_id ids d2) as L.
  destruct (link_tags_others note_id ids d2) as (_ & S).
  destruct (link_tags note_id ids d2) as [d3 [u|e]]; cbn [fst snd] in *;
    destruct L as (_ & T & _ & _); subst d2;
    cbn [tags seq_tags set_note_tags_table] in T, S; destruct H1 as [S1 P1].
  - unfold clean_unused_tags. cbn [tags seq_tags set_tags]. rewrite S, T.
    split; [exact S1|]. rewrite Forall_forall in *. intros t Ht.
    apply filter_In in Ht as [Ht _]. now apply P1.
  - now rewrite S, T.
Qed.

Lemma step_ids_positive (d : Database) (o : op) :
  ids_positive d -> ids_positive (step d o).
Proof.
  intros ((Sf & Sn & St) & Pf & Pn & Pt).
  assert (forall (A : Type) (P : A -> Prop) (k : A -> bool) (l : list A),
            Forall P l -> Forall P (filter k l)) as Ffilter.
  { intros A P k l F. rewrite Forall_forall in *. intros x Hx.
    apply filter_In in Hx as [Hx _]. now apply F. }
  assert (forall (p : Note.t -> bool) (f : Note.t -> Note.t),
            (forall n, Note.id (f n) = Note.id n) ->
            Forall (fun n => 0 < Note.id n)
                   (map (fun n => if p n then f n else n) (notes d))) as Fmap.
  { intros p f Hf. rewrite Forall_forall in *. intros m Hm.
    apply in_map_iff in Hm as (n & <- & Hn). specialize (Pn n Hn).
    destruct (p n); [rewrite Hf|]; exact Pn. }
  unfold ids_positive. destruct o; cbn [step].
  - unfold create_folder. destruct (existsb _ _); [repeat split; auto|].
    cbn. repeat split; auto; try lia.
    apply Forall_app. split; [exact Pf|]. repeat constructor. cbn. lia.
  - unfold rename_folder. destruct (negb _); [repeat split; auto|].
    destruct (existsb _ _); [repeat split; auto|].
    cbn. repeat split; auto. rewrite Forall_forall in *. intros g Hg.
    apply in_map_iff in Hg as (f & <- & Hf). specialize (Pf f Hf).
    now destruct (Folder.id f =? folder_id).
  - unfold delete_folder. destruct (folder_exists _ _); [|repeat split; auto].
    cbn. repeat split; auto. all: try (now apply Fmap).
  - unfold create_note. destruct (folder_ref_ok _ _); [|repeat split; auto].
    cbn. repeat split; auto; try lia.
    apply Forall_app. split; [exact Pn|]. repeat constructor. cbn. lia.
  - unfold update_note. destruct (negb _); [repeat split; auto|].
    destruct (folder_ref_ok _ _); [|repeat split; auto].
    cbn. repeat split; auto. all: try (now apply Fmap).
  - cbn. repeat split; auto.
  - unfold move_note. destruct (negb _); [repeat split; auto|].
    destruct (folder_ref_ok _ _); [|repeat split; auto].
    cbn. repeat split; auto. all: try (now apply Fmap).
  - destruct (set_note_tags_keeps note_id tag_names d) as [(En & _ & Es) _].
    destruct (set_note_tags_others note_id tag_names d) as [Ef Esf].
    destruct (set_note_tags_positive note_id tag_names d (conj St Pt)) as [St' Pt'].
    rewrite En, Es, Ef, Esf. repeat split; auto.
  - cbn. repeat split; auto.
  - unfold init_schema. destruct (0 <? _); [|repeat split; auto].
    destruct (_ =? 0); repeat split; auto.
Qed.

Lemma step_well_formed (d : Database) (o : op) :
  well_formed d -> well_formed (step d o).
Proof.
  intros (C & Fk & Fn & Tk & R & Tc & P).
  destruct (step_folders_ok d o (conj Fk Fn)) as [Fk' Fn'].
  destruct (step_tags_ok d o (conj Tk Tc)) as [Tk' Tc'].
  split; [exact (step_consistent d o C)|].
  split; [exact Fk'|]. split; [exact Fn'|]. split; [exact Tk'|].
  split; [exact (step_refs_ok d o R)|]. split; [exact Tc'|].
  exact (step_ids_positive d o P).
Qed.

Lemma run_well_formed (ops : list op) :
  forall d, well_formed d -> well_formed (run ops d).
Proof.
  induction ops as [|o ops IH]; intros d H; [exact H|].
  cbn [run fold_left]. apply IH. now apply step_well_formed.
Qed.

Lemma empty_db_well_formed : well_formed empty_db.
Proof.
  repeat split; cbn; try constructor; try lia; try contradiction.
Qed.

Lemma reachable_well_formed (ops : list op) : well_formed (run ops empty_db).
Proof. apply run_well_formed, empty_db_well_formed. Qed.

(** ** What every reachable store satisfies *)

(** X2: after any sequence of calls no reference dangles: a note's
    folder is NULL or a folder that exists, every link joins a note and
    a tag that exist, and no note is linked to the same tag twice. *)
Theorem store_references_hold :
  forall ops : list op,
  let d := run ops empty_db in
  (forall n f, In n (notes d) -> Note.folder_id n = Some f ->
     exists folder, In folder (folders d) /\ Folder.id folder = f) /\
  (forall l, In l (note_tags d) ->
     (exists n, In n (notes d) /\ Note.id n = NoteTag.note_id l) /\
     (exists t, In t (tags d) /\ Tag.id t = NoteTag.tag_id l)) /\
  NoDup (note_tags d).
Proof.
  intros ops d.
  destruct (reachable_well_formed ops) as (_ & _ & _ & _ & R & _).
  fold d in R. apply refs_ok_alt in R as (A & B & C).
  split; [|split; [|exact C]].
  - intros n f Hn Hf. specialize (A n f Hn Hf).
    apply in_map_iff in A as (x & E & Hx). now exists x.
  - intros l Hl. destruct (B l Hl) as [B1 B2].
    apply in_map_iff in B1 as (n & E1 & Hn).
    apply in_map_iff in B2 as (t & E2 & Ht).
    split; [now exists n|now exists t].
Qed.

(** X3: after any sequence of calls the ids of notes, of folders and of
    tags are distinct within their table, and no two folders have the
    same name (compared as exact strings), renames included. *)
Theorem store_keys_unique :
  forall ops : list op,
  let d := run ops empty_db in
  NoDup (map Note.id (notes d)) /\
  NoDup (map Folder.id (folders d)) /\
  NoDup (map Folder.name (folders d)) /\
  NoDup (map Tag.id (tags d)).
Proof.
  intros ops d.
  destruct (reachable_well_formed ops)
    as (([Nn _] & _ & _) & [Nf _] & Nfn & [Nt _] & _).
  repeat split; assumption.
Qed.

Lemma step_counters_grow (d : Database) (o : op) :
  seq_notes d <= seq_notes (step d o)
  /\ seq_folders d <= seq_folders (step d o)
  /\ seq_tags d <= seq_tags (step d o).
Proof.
  destruct o; cbn [step].
  - unfold create_folder. destruct (existsb _ _); cbn; lia.
  - unfold rename_folder. destruct (negb _); [cbn; lia|].
    destruct (existsb _ _); cbn; lia.
  - unfold delete_folder. destruct (folder_exists _ _); cbn; lia.
  - unfold create_note. destruct (folder_ref_ok _ _); cbn; lia.
  - unfold update_note. destruct (negb _); [cbn; lia|].
    destruct (folder_ref_ok _ _); cbn; lia.
  - cbn; lia.
  - unfold move_note. destruct (negb _); [cbn; lia|].
    destruct (folder_ref_ok _ _); cbn; lia.
  - destruct (set_note_tags_keeps note_id tag_names d) as [(_ & _ & Es) _].
    destruct (set_note_tags_others note_id tag_names d) as [_ Esf].
    rewrite Es, Esf. split; [lia|]. split; [lia|].
    unfold set_note_tags, intern_tags.
    fold (intern_from (clean_names tag_names) (d, [])).
    destruct (intern_from_others (clean_names tag_names) (d, [])) as (_ & G).
    destruct (intern_from (clean_names tag_names) (d, [])) as [d1 ids].
    cbn [fst] in G. set (d2 := set_note_tags_table _ d1).
    destruct (link_tags_others note_id ids d2) as (_ & S).
    destruct (link_tags note_id ids d2) as [d3 [u|e]]; cbn [fst] in *;
      subst d2; cbn in S; cbn; lia.
  - cbn; lia.
  - unfold init_schema. destruct (0 <? _); [|lia].
    destruct (_ =? 0); cbn; lia.
Qed.

Lemma run_counters_grow (ops : list op) :
  forall d,
    seq_notes d <= seq_notes (run ops d)
    /\ seq_folders d <= seq_folders (run ops d)
    /\ seq_tags d <= seq_tags (run ops d).
Proof.
  induction ops as [|o ops IH]; intros d; [cbn; lia|].
  cbn [run fold_left]. fold (run ops (step d o)).
  pose proof (step_counters_grow d o). pose proof (IH (step d o)). lia.
Qed.

(** X4: ids are never handed out twice.  A note or folder that existed
    at some point, deleted since or not, has an id strictly below the id
    any later [create_note] or [create_folder] returns. *)
Theorem ids_never_reused :
  forall (before after : list op),
  let d0 := run before empty_db in
  let d := run after d0 in
  (forall n folder_id title now d' id,
     In n (notes d0) ->
     create_note folder_id title now d = (d', Ok id) -> Note.id n < id) /\
  (forall f name d' id,
     In f (folders d0) ->
     create_folder name d = (d', Ok id) -> Folder.id f < id).
Proof.
  intros before after d0 d.
  destruct (reachable_well_formed before)
    as (([_ Bn] & _ & _) & [_ Bf] & _).
  fold d0 in Bn, Bf. destruct (run_counters_grow after d0) as (Gn & Gf & _).
  fold d in Gn, Gf. rewrite Forall_forall in Bn, Bf. split.
  - intros n folder_id title now d' id Hn. unfold create_note.
    destruct (folder_ref_ok _ _); [|discriminate].
    intros E. inversion E. specialize (Bn n Hn). lia.
  - intros f name d' id Hf. unfold create_folder.
    destruct (existsb _ _); [discriminate|].
    intros E. inversion E. specialize (Bf f Hf). lia.
Qed.

Lemma ids_never_reused_witness :
  let n := Note.mk 1 None "old"%string EmptyString 5 5 in
  let d0 := run [CreateNote None "old"%string 5] empty_db in
  let d := run [DeleteNote 1] d0 in
  (In n (notes d0) /\ notes d = []) /\
  create_note None "new"%string 6 d
  = (fst (create_note None "new"%string 6 d), Ok 2) /\
  Note.id n < 2.
Proof.
  intros n d0 d.
  assert (In n (notes d0)) as Hn by (left; reflexivity).
  split; [split; [exact Hn|reflexivity]|]. split; [reflexivity|].
  destruct (ids_never_reused [CreateNote None "old"%string 5] [DeleteNote 1])
    as [H _].
  exact (H n None "new"%string 6 _ 2 Hn eq_refl).
Defined.

(** X5: every tag in the store has a name that is not empty and that
    neither begins nor ends with white space: names reach the table only
    through the stripping of [set_note_tags]. *)
Theorem tag_names_stored_stripped :
  forall (ops : list op) (t : Tag.t),
  In t (tags (run ops empty_db)) ->
  strip (Tag.name t) = Tag.name t /\
  (exists c r, Tag.name t = String c r /\ is_space c = false) /\
  (exists c' pre, Tag.name t = (pre ++ String c' EmptyString)%string
                  /\ is_space c' = false).
Proof.
  intros ops t Ht.
  destruct (reachable_well_formed ops) as (_ & _ & _ & _ & _ & C & _).
  destruct (C t Ht) as [E Hne]. split; [exact E|].
  destruct (strip_ends (Tag.name t)) as [Z|H]; rewrite E in *.
  - rewrite Z in Hne. discriminate.
  - exact H.
Qed.

Lemma tag_names_stored_stripped_witness :
  let ops := [CreateNote None "n"%string 1;
              SetNoteTags 1 ["  to do  "%string; "   "%string]] in
  let t := Tag.mk 1 "to do"%string in
  tags (run ops empty_db) = [t] /\ strip (Tag.name t) = Tag.name t.
Proof.
  intros ops t. split; [reflexivity|].
  apply (tag_names_stored_stripped ops t). left. reflexivity.
Defined.

(** ** Edge behaviour of the folder and note calls *)

Lemma Database_eta (d : Database) :
  mkDatabase (folders d) (notes d) (tags d) (note_tags d) (notes_fts d)
             (seq_folders d) (seq_notes d) (seq_tags d) = d.
Proof. now destruct d. Qed.

Lemma fold_left_skip {S Row} (p : Row -> bool) (g : Row -> S -> S)
    (rows : list Row) (s : S) :
  (forall r, In r rows -> p r = false) ->
  fold_left (fun s r => if p r then g r s else s) rows s = s.
Proof.
  revert s. induction rows as [|r rows IH]; intros s H; [reflexivity|].
  cbn [fold_left]. rewrite (H r (or_introl eq_refl)). apply IH.
  intros x Hx. apply H. now right.
Qed.

Lemma delete_rows_none (p : Note.t -> bool) (d : Database) :
  (forall n, In n (notes d) -> p n = false) -> delete_rows p d = d.
Proof.
  intros H. unfold delete_rows.
  rewrite (fold_left_skip p notes_ad _ _ H).
  rewrite (filter_none p _ H). cbn [existsb negb].
  rewrite (filter_all (fun _ => true)) by reflexivity.
  rewrite (filter_all (fun n => negb (p n)))
    by (intros n Hn; now rewrite (H n Hn)).
  unfold set_notes_fts, set_note_tags_table, set_notes. cbn. apply Database_eta.
Qed.

(** X6: [rename_folder] on an id that names no folder returns normally
    and changes nothing; renaming to the exact name of another folder
    raises the integrity error and changes nothing; otherwise (the
    folder's own current name included) the call returns, that folder
    alone gets the name, and ids and notes are as before. *)
Theorem rename_folder_cases :
  forall (folder_id : Z) (name : string) (d : Database),
  (folder_exists folder_id d = false ->
   rename_folder folder_id name d = (d, Ok tt)) /\
  (folder_exists folder_id d = true ->
   (exists f, In f (folders d) /\ Folder.id f <> folder_id /\ Folder.name f = name) ->
   rename_folder folder_id name d = (d, Raise IntegrityError)) /\
  (folder_exists folder_id d = true ->
   (forall f, In f (folders d) -> Folder.id f <> folder_id -> Folder.name f <> name) ->
   exists d',
     rename_folder folder_id name d = (d', Ok tt) /\
     map Folder.id (folders d') = map Folder.id (folders d) /\
     (forall f, In f (folders d') -> Folder.id f = folder_id -> Folder.name f = name) /\
     (forall f, Folder.id f <> folder_id -> In f (folders d') <-> In f (folders d)) /\
     notes d' = notes d /\ tags d' = tags d /\ note_tags d' = note_tags d).
Proof.
  intros folder_id name d. unfold rename_folder. split; [|split].
  - intros E. now rewrite E.
  - intros E (f & Hf & Hid & Hn). rewrite E. cbn [negb].
    assert (existsb (fun f => negb (Folder.id f =? folder_id)
                              && String.eqb (Folder.name f) name) (folders d) = true)
      as X; [|now rewrite X].
    apply existsb_exists. exists f. split; [exact Hf|].
    apply Z.eqb_neq in Hid. rewrite Hid. now apply String.eqb_eq.
  - intros E H. rewrite E. cbn [negb].
    destruct (existsb _ (folders d)) eqn:X.
    { exfalso. apply existsb_exists in X as (f & Hf & B).
      apply andb_prop in B as [B1 B2]. apply negb_true_iff, Z.eqb_neq in B1.
      apply String.eqb_eq in B2. now apply (H f Hf B1). }
    eexists. split; [reflexivity|]. cbn [folders notes tags note_tags set_folders].
    split; [|split; [|split; [|repeat split]]].
    + rewrite map_map. apply map_ext. intros f.
      now destruct (Folder.id f =? folder_id).
    + intros f Hf Hid. apply in_map_iff in Hf as (g & <- & Hg).
      destruct (Z.eqb_spec (Folder.id g) folder_id); [reflexivity|contradiction].
    + intros f Hid. rewrite in_map_iff. split.
      * intros (g & <- & Hg).
        destruct (Z.eqb_spec (Folder.id g) folder_id) as [Eg|Eg];
          [now cbn in Hid|exact Hg].
      * intros Hf. exists f. split; [|exact Hf].
        apply Z.eqb_neq in Hid. now rewrite Hid.
Qed.

Lemma rename_folder_cases_witness :
  let d := run [CreateFolder "Work"%string; CreateFolder "Home"%string] empty_db in
  (folder_exists 1 d = true /\
   exists f, In f (folders d) /\ Folder.id f <> 1 /\ Folder.name f = "Home"%string) /\
  rename_folder 1 "Home"%string d = (d, Raise IntegrityError) /\
  snd (rename_folder 1 "Work"%string d) = Ok tt /\
  rename_folder 7 "Home"%string d = (d, Ok tt).
Proof.
  intros d.
  assert (exists f, In f (folders d) /\ Folder.id f <> 1
                    /\ Folder.name f = "Home"%string) as H.
  { exists (Folder.mk 2 "Home"%string). split; [right; left; reflexivity|].
    split; [discriminate|reflexivity]. }
  split; [split; [reflexivity|exact H]|].
  split; [|split; reflexivity].
  now apply (rename_folder_cases 1 "Home"%string d).
Defined.

Lemma find_absent {A} (p : A -> bool) (l : list A) :
  (forall x, In x l -> p x = false) -> find p l = None.
Proof.
  induction l as [|a l IH]; intros H; [reflexivity|].
  cbn [find]. rewrite (H a (or_introl eq_refl)). apply IH.
  intros x Hx. apply H. now right.
Qed.

(** X7: [delete_note] on an id that names no note returns normally and
    changes nothing.  On a note that exists it removes that note alone,
    removes every link of that note and no other link, and leaves tags
    and folders as they were; the note can no longer be fetched. *)
Theorem delete_note_cascades :
  forall (note_id : Z) (d : Database),
  (note_exists note_id d = false -> delete_note note_id d = (d, Ok tt)) /\
  (note_exists note_id d = true ->
   let d' := fst (delete_note note_id d) in
   snd (delete_note note_id d) = Ok tt /\
   notes d' = filter (fun n => negb (Note.id n =? note_id)) (notes d) /\
   get_note note_id d' = None /\
   note_tags d' = filter (fun l => negb (NoteTag.note_id l =? note_id)) (note_tags d) /\
   (forall tag_id, has_link note_id tag_id d' = false) /\
   tags d' = tags d /\ folders d' = folders d).
Proof.
  intros note_id d. split.
  - intros E. unfold delete_note. f_equal. apply delete_rows_none.
    intros n Hn. unfold note_exists in E.
    destruct (Note.id n =? note_id) eqn:B; [|reflexivity].
    assert (existsb (fun n => Note.id n =? note_id) (notes d) = true) as X
        by (apply existsb_exists; now exists n).
    congruence.
  - intros E. unfold delete_note. cbn [fst snd]. unfold delete_rows.
    cbn [notes note_tags tags folders set_notes_fts set_note_tags_table set_notes].
    assert (forall l,
              existsb (fun n => Note.id n =? NoteTag.note_id l)
                      (filter (fun n => Note.id n =? note_id) (notes d))
              = (NoteTag.note_id l =? note_id)) as G.
    { intros l. apply eq_true_iff_eq. rewrite existsb_exists, Z.eqb_eq. split.
      - intros (n & Hn & B). apply filter_In in Hn as [_ Hn].
        apply Z.eqb_eq in Hn, B. congruence.
      - intros El. apply existsb_exists in E as (n & Hn & B).
        exists n. split; [now apply filter_In|].
        apply Z.eqb_eq in B. apply Z.eqb_eq. congruence. }
    assert (filter (fun l => negb (existsb (fun n => Note.id n =? NoteTag.note_id l)
                                           (filter (fun n => Note.id n =? note_id) (notes d))))
                   (note_tags d)
            = filter (fun l => negb (NoteTag.note_id l =? note_id)) (note_tags d)) as F.
    { apply filter_ext. intros l. now rewrite G. }
    repeat split.
    + unfold get_note. cbn [notes]. apply find_absent.
      intros n Hn. apply filter_In in Hn as [_ Hn]. now apply negb_true_iff.
    + exact F.
    + intros tag_id. unfold has_link. cbn [note_tags]. rewrite F.
      destruct (existsb _ _) eqn:X; [|reflexivity].
      apply existsb_exists in X as (l & Hl & B). apply filter_In in Hl as [_ Hl].
      apply andb_prop in B as [B _]. rewrite B in Hl. discriminate.
Qed.

Lemma delete_note_cascades_witness :
  let d := run [CreateNote None "a"%string 1; CreateNote None "b"%string 2;
                SetNoteTags 1 ["x"%string; "y"%string];
                SetNoteTags 2 ["y"%string]] empty_db in
  note_exists 1 d = true /\
  note_tags (fst (delete_note 1 d)) = [NoteTag.mk 2 2] /\
  get_note 1 (fst (delete_note 1 d)) = None /\
  delete_note 9 d = (d, Ok tt).
Proof.
  intros d. split; [reflexivity|].
  destruct (delete_note_cascades 1 d) as [_ H].
  destruct (H eq_refl) as (_ & _ & G & L & _).
  split; [rewrite L; reflexivity|]. split; [exact G|].
  now apply (delete_note_cascades 9 d).
Defined.


(** ** Listings *)

Lemma string_leb_trans (a b c : string) :
  String.leb a b = true -> String.leb b c = true -> String.leb a c = true.
Proof.
  unfold String.leb. revert b c.
  induction a as [|x a IH]; intros [|y b] [|z c]; cbn [String.compare];
    try discriminate; try reflexivity.
  unfold Ascii.compare.
  destruct (N.compare_spec (N_of_ascii x) (N_of_ascii y)) as [E1|L1|G1];
    destruct (N.compare_spec (N_of_ascii y) (N_of_ascii z)) as [E2|L2|G2];
    destruct (N.compare_spec (N_of_ascii x) (N_of_ascii z)) as [E3|L3|G3];
    try discriminate; try reflexivity; try lia.
  apply IH.
Qed.

Lemma nocase_leb_total (a b : string) :
  nocase_leb a b = true \/ nocase_leb b a = true.
Proof. apply String.leb_total. Qed.

Lemma nocase_leb_trans (a b c : string) :
  nocase_leb a b = true -> nocase_leb b c = true -> nocase_leb a c = true.
Proof. apply string_leb_trans. Qed.

Lemma sort_by_name_sorted {Row} (name : Row -> string) (rows : list Row) :
  StronglySorted (fun a b => nocase_leb (name a) (name b) = true)
    (sort_by (fun a b => nocase_leb (name a) (name b)) rows).
Proof.
  apply sort_by_sorted.
  - intros a b. apply nocase_leb_total.
  - intros a b c. apply nocase_leb_trans.
Qed.

(** X9: [list_folders] shows every folder exactly once, ordered by name
    without regard to the case of ASCII letters. *)
Theorem list_folders_sorted_listing :
  forall d : Database,
  Permutation (list_folders d) (folders d) /\
  StronglySorted
    (fun a b => nocase_leb (Folder.name a) (Folder.name b) = true)
    (list_folders d).
Proof.
  intros d. split; [apply sort_by_perm|apply sort_by_name_sorted].
Qed.

Lemma only_copies_short {A} (x : A) (l : list A) :
  NoDup l -> (forall y, In y l -> y = x) -> l = [] \/ l = [x].
Proof.
  intros N H. destruct l as [|a [|b l]]; [now left| |].
  - right. f_equal. apply H. now left.
  - exfalso. inversion N as [|? ? Hn _]. apply Hn.
    rewrite (H a), (H b); [now left| right; now left|now left].
Qed.

Lemma single_link (note_id tag_id : Z) (d : Database) :
  NoDup (note_tags d) ->
  filter (fun l => (NoteTag.tag_id l =? tag_id) && (NoteTag.note_id l =? note_id))
         (note_tags d)
  = if has_link note_id tag_id d then [NoteTag.mk note_id tag_id] else [].
Proof.
  intros N.
  set (hits := filter _ (note_tags d)).
  assert (forall l, In l hits <-> l = NoteTag.mk note_id tag_id /\ In l (note_tags d))
    as Spec.
  { intros [n t]. unfold hits. rewrite filter_In. cbn. split.
    - intros (Hl & B). apply andb_prop in B as [B1 B2].
      apply Z.eqb_eq in B1, B2. subst. auto.
    - intros ([= -> ->] & Hl). split; [exact Hl|]. now rewrite !Z.eqb_refl. }
  destruct (only_copies_short (NoteTag.mk note_id tag_id) hits) as [E|E].
  - apply NoDup_filter, N.
  - intros y Hy. now apply Spec in Hy.
  - rewrite E. destruct (has_link note_id tag_id d) eqn:Hl; [|reflexivity].
    apply has_link_In in Hl. exfalso.
    assert (In (NoteTag.mk note_id tag_id) hits) as X by (apply Spec; auto).
    now rewrite E in X.
  - rewrite E. destruct (has_link note_id tag_id d) eqn:Hl; [reflexivity|].
    assert (In (NoteTag.mk note_id tag_id) hits) as X by (rewrite E; now left).
    apply Spec in X as [_ X]. apply has_link_In in X. congruence.
Qed.

Lemma joined_tags (note_id : Z) (d : Database) :
  NoDup (note_tags d) ->
  flat_map
    (fun t => map (fun _ => t)
                (filter (fun l => (NoteTag.tag_id l =? Tag.id t)
                                  && (NoteTag.note_id l =? note_id))
                        (note_tags d)))
    (tags d)
  = filter (fun t => has_link note_id (Tag.id t) d) (tags d).
Proof.
  intros N. induction (tags d) as [|t l IH]; [reflexivity|].
  cbn [flat_map filter]. rewrite IH, (single_link note_id (Tag.id t) d N).
  now destruct (has_link note_id (Tag.id t) d).
Qed.

(** X10: after any sequence of calls, [list_note_tags] (and so the tag
    list of every search result) holds exactly the tags the note is
    linked to, each once, ordered by name without regard to the case of
    ASCII letters. *)
Theorem list_note_tags_exact :
  forall (ops : list op) (note_id : Z),
  let d := run ops empty_db in
  Permutation (list_note_tags note_id d)
              (filter (fun t => has_link note_id (Tag.id t) d) (tags d)) /\
  NoDup (list_note_tags note_id d) /\
  StronglySorted (fun a b => nocase_leb (Tag.name a) (Tag.name b) = true)
                 (list_note_tags note_id d) /\
  (forall r, NoteSummary.tags (summary d r) = list_note_tags (Note.id r) d).
Proof.
  intros ops note_id d.
  destruct (reachable_well_formed ops) as (_ & _ & _ & [Nt _] & (_ & _ & Nl) & _).
  fold d in Nt, Nl.
  assert (Permutation (list_note_tags note_id d)
                      (filter (fun t => has_link note_id (Tag.id t) d) (tags d))) as P.
  { unfold list_note_tags. rewrite sort_by_perm. now rewrite joined_tags. }
  split; [exact P|]. split; [|split; [apply sort_by_name_sorted|reflexivity]].
  apply (Permutation_NoDup (Permutation_sym P)).
  apply NoDup_filter. now apply NoDup_map_inv in Nt.
Qed.

Lemma NoDup_map_on {Row Key} (key : Row -> Key) (rows : list Row) :
  (forall a b, In a rows -> In b rows -> key a = key b -> a = b) ->
  NoDup rows -> NoDup (map key rows).
Proof.
  induction rows as [|r rows IH]; intros Inj N; [constructor|].
  inversion N as [|? ? Hr N']; subst. cbn [map]. constructor.
  - intros H. apply in_map_iff in H as (x & E & Hx). apply Hr.
    rewrite <- (Inj x r); [exact Hx|now right|now left|exact E].
  - apply IH; [|exact N']. intros a b Ha Hb. apply Inj; now right.
Qed.

Lemma usage_counts_notes (tag_id : Z) (d : Database) :
  well_formed d ->
  usage tag_id d
  = Z.of_nat (List.length (filter (fun n => has_link (Note.id n) tag_id d) (notes d))).
Proof.
  intros (([Nn _] & _ & _) & _ & _ & _ & R & _).
  apply refs_ok_alt in R as (_ & B & Nl).
  unfold usage. f_equal.
  rewrite <- (length_map NoteTag.note_id).
  rewrite <- (length_map Note.id (filter _ (notes d))).
  apply Permutation_length. apply NoDup_Permutation.
  - apply NoDup_map_on; [|now apply NoDup_filter].
    intros [n1 t1] [n2 t2] H1 H2 E. apply filter_In in H1 as [_ H1].
    apply filter_In in H2 as [_ H2]. cbn in *.
    apply Z.eqb_eq in H1, H2. congruence.
  - now apply NoDup_map_filter.
  - intros k. rewrite !in_map_iff. split.
    + intros ([n t] & E & Hl). apply filter_In in Hl as [Hl Ht].
      cbn in E, Ht. apply Z.eqb_eq in Ht. subst.
      destruct (B _ Hl) as [Hn _]. cbn in Hn.
      apply in_map_iff in Hn as (x & Ex & Hx). exists x. split; [exact Ex|].
      apply filter_In. split; [exact Hx|]. rewrite Ex. now apply has_link_In.
    + intros (x & Ex & Hx). apply filter_In in Hx as [Hx Hl].
      rewrite Ex in Hl. apply has_link_In in Hl.
      exists (NoteTag.mk k tag_id). split; [reflexivity|].
      apply filter_In. split; [exact Hl|]. apply Z.eqb_refl.
Qed.

(** X11: after any sequence of calls, [all_tags] lists every tag exactly
    once, ordered by name without regard to the case of ASCII letters,
    and the usage count it reports for a tag is the number of notes
    linked to that tag. *)
Theorem all_tags_counts_notes :
  forall ops : list op,
  let d := run ops empty_db in
  Permutation (map (fun u => Tag.mk (TagUsage.id u) (TagUsage.name u)) (all_tags d))
              (tags d) /\
  StronglySorted
    (fun a b => nocase_leb (TagUsage.name a) (TagUsage.name b) = true)
    (all_tags d) /\
  (forall u, In u (all_tags d) ->
     TagUsage.usage_count u
     = Z.of_nat (List.length
                   (filter (fun n => has_link (Note.id n) (TagUsage.id u) d)
                           (notes d)))).
Proof.
  intros ops d. pose proof (reachable_well_formed ops) as W. fold d in W.
  unfold all_tags. split; [|split].
  - rewrite map_map. cbn [TagUsage.id TagUsage.name].
    rewrite (map_ext _ (fun t => t)) by (now intros []).
    rewrite map_id. apply sort_by_perm.
  - apply StronglySorted_map. cbn [TagUsage.name]. apply sort_by_name_sorted.
  - intros u Hu. apply in_map_iff in Hu as (t & <- & _).
    cbn [TagUsage.usage_count TagUsage.id]. now apply usage_counts_notes.
Qed.

(** ** The three filters together *)

Lemma search_notes_passes (fts_match : string -> list Fts.t -> option (list Z))
    (folder_id : option Z) (query : string) (tag_ids : list Z) (d : Database) :
  search_notes fts_match folder_id query tag_ids d
  = Ok (map (summary d)
          (firstn 1000
             (sort_by updated_desc
                (filter (passes fts_match folder_id query tag_ids d) (notes d))))).
Proof.
  unfold search_notes, execute_search.
  assert (forall (clauses : list (Note.t -> bool)) (q : Note.t -> bool),
             (forall n, forallb (fun c => c n) clauses = q n) ->
             select_notes clauses d
             = firstn 1000 (sort_by updated_desc (filter q (notes d)))) as S.
  { intros clauses q Hq. unfold select_notes. change limit with 1000%nat.
    do 2 f_equal. apply filter_ext. exact Hq. }
  destruct (is_empty query) eqn:Eq.
  - f_equal. f_equal. apply S. intros n. unfold passes. rewrite Eq.
    destruct folder_id, tag_ids; cbn; unfold folder_clause;
      now rewrite ?andb_true_r.
  - destruct (fts_match _ _) as [rowids|] eqn:Em.
    + f_equal. f_equal. apply S. intros n. unfold passes. rewrite Eq, Em.
      destruct folder_id, tag_ids; cbn; unfold folder_clause;
        rewrite ?andb_true_r, ?andb_assoc; reflexivity.
    + f_equal. rewrite filter_none; [now rewrite firstn_nil|].
      intros n _. unfold passes. rewrite Eq, Em.
      rewrite andb_false_r. reflexivity.
Qed.

Lemma In_firstn {A} (k : nat) (l : list A) (x : A) :
  In x (firstn k l) -> In x l.
Proof.
  intros H. rewrite <- (firstn_skipn k l). apply in_or_app. now left.
Qed.

(** X12: the folder scope, the text match and the tag count combine by
    conjunction.  Every result of [search_notes] is the summary of a note
    of the store that passes all the filters given, a query the index
    refuses matches nothing, and when at most 1000 notes pass, every one
    of them is among the results. *)
Theorem search_notes_all_filters :
  forall (fts_match : string -> list Fts.t -> option (list Z))
         (folder_id : option Z) (query : string) (tag_ids : list Z)
         (d : Database),
  exists result,
    search_notes fts_match folder_id query tag_ids d = Ok result /\
    (forall s, In s result ->
       exists n, In n (notes d) /\ s = summary d n /\
                 passes fts_match folder_id query tag_ids d n = true) /\
    ((List.length (filter (passes fts_match folder_id query tag_ids d) (notes d))
      <= 1000)%nat ->
     forall n, In n (notes d) ->
       passes fts_match folder_id query tag_ids d n = true ->
       In (summary d n) result).
Proof.
  intros fm folder_id query tag_ids d. eexists.
  split; [apply search_notes_passes|]. split.
  - intros s Hs. apply in_map_iff in Hs as (n & <- & Hn).
    apply In_firstn, sort_by_In, filter_In in Hn as [Hn Hp]. now exists n.
  - intros Hlen n Hn Hp. apply in_map. rewrite firstn_all2.
    + apply sort_by_In. now apply filter_In.
    + now rewrite (Permutation_length (sort_by_perm updated_desc _)).
Qed.

Lemma search_notes_all_filters_witness :
  let fm : string -> list Fts.t -> option (list Z) := fun _ _ => Some [1; 2] in
  let d := run [CreateFolder "F"%string;
                CreateNote (Some 1) "a"%string 1;
                CreateNote None "b"%string 2;
                CreateNote (Some 1) "c"%string 3] empty_db in
  exists result,
    search_notes fm (Some 1) "x"%string [] d = Ok result /\
    map NoteSummary.id result = [1] /\
    In (summary d (Note.mk 1 (Some 1) "a"%string EmptyString 1 1)) result.
Proof.
  intros fm d.
  destruct (search_notes_all_filters fm (Some 1) "x"%string [] d)
    as (result & E & _ & C).
  exists result. split; [exact E|]. split.
  - assert (Ok result = Ok (A := list NoteSummary.t)
                           (map (summary d) [Note.mk 1 (Some 1) "a"%string EmptyString 1 1]))
      as X by (rewrite <- E; reflexivity).
    inversion X. reflexivity.
  - apply C; [cbn; lia|left; reflexivity|reflexivity].
Defined.

(** X13: once a folder is deleted, a search scoped to it finds nothing,
    whatever the query and the tags. *)
Theorem search_in_deleted_folder :
  forall (fts_match : string -> list Fts.t -> option (list Z))
         (folder_id : Z) (query : string) (tag_ids : list Z) (d : Database),
  folder_exists folder_id d = true ->
  search_notes fts_match (Some folder_id) query tag_ids
               (fst (delete_folder folder_id d)) = Ok [].
Proof.
  intros fm folder_id query tag_ids d Hex. rewrite search_notes_passes.
  rewrite filter_none; [now rewrite firstn_nil|].
  intros n Hn. unfold delete_folder in Hn. rewrite Hex in Hn.
  cbn [fst] in Hn. unfold update_rows in Hn.
  cbn [notes set_notes_fts set_notes set_folders] in Hn.
  apply in_map_iff in Hn as (m & <- & _).
  unfold passes, in_scope.
  destruct (refers_to folder_id m) eqn:Hr; [reflexivity|]. now rewrite Hr.
Qed.

Lemma search_in_deleted_folder_witness :
  let d := run [CreateFolder "F"%string;
                CreateNote (Some 1) "a"%string 1] empty_db in
  folder_exists 1 d = true /\
  (exists s, search_notes (fun _ _ => None) (Some 1) EmptyString [] d = Ok [s]) /\
  search_notes (fun _ _ => None) (Some 1) EmptyString []
               (fst (delete_folder 1 d)) = Ok [].
Proof.
  intros d. split; [reflexivity|]. split; [eexists; reflexivity|].
  now apply (search_in_deleted_folder (fun _ _ => None) 1 EmptyString [] d).
Defined.

(** ** [set_note_tags], exactly *)

Lemma link_tags_exact (note_id : Z) (tag_ids : list Z) :
  forall d,
    note_exists note_id d = true ->
    (forall tid, In tid tag_ids -> tag_exists tid d = true) ->
    link_tags note_id tag_ids d
    = (set_note_tags_table (link_list note_id tag_ids (note_tags d)) d, Ok tt).
Proof.
  induction tag_ids as [|tid rest IH]; intros d Hn Ht; cbn [link_tags link_list].
  - f_equal. unfold set_note_tags_table. now rewrite Database_eta.
  - fold (has_link note_id tid d). destruct (has_link note_id tid d).
    + apply IH; [exact Hn|]. intros x Hx. apply Ht. now right.
    + rewrite Hn, (Ht tid (or_introl eq_refl)). cbn [andb].
      rewrite IH; [reflexivity|exact Hn|].
      intros x Hx. apply Ht. now right.
Qed.

Lemma link_list_grows (note_id : Z) (tag_ids : list Z) :
  forall links,
  exists added,
    link_list note_id tag_ids links = links ++ added
    /\ forall l, In l added ->
         NoteTag.note_id l = note_id /\ In (NoteTag.tag_id l) tag_ids.
Proof.
  induction tag_ids as [|tid rest IH]; intros links; cbn [link_list].
  - exists []. split; [now rewrite app_nil_r|intros ? []].
  - destruct (existsb _ links).
    + destruct (IH links) as (added & E & H). exists added.
      split; [exact E|]. intros l Hl. destruct (H l Hl). split; [|right]; auto.
    + destruct (IH (links ++ [NoteTag.mk note_id tid])) as (added & E & H).
      exists (NoteTag.mk note_id tid :: added). split.
      * rewrite E, <- app_assoc. reflexivity.
      * intros l [<-|Hl]; [cbn; auto|].
        destruct (H l Hl). split; [|right]; auto.
Qed.

Lemma link_list_links (note_id : Z) (tag_ids : list Z) :
  forall links tid,
    In tid tag_ids -> In (NoteTag.mk note_id tid) (link_list note_id tag_ids links).
Proof.
  induction tag_ids as [|t rest IH]; intros links tid Hin; [contradiction|].
  destruct Hin as [->|H]; cbn [link_list].
  - destruct (existsb _ links) eqn:Ex.
    + destruct (link_list_grows note_id rest links) as (added & E & _).
      rewrite E. apply in_or_app. left.
      apply existsb_exists in Ex as ([n x] & Hl & B). cbn in B.
      apply andb_prop in B as [B1 B2]. apply Z.eqb_eq in B1, B2. now subst.
    + destruct (link_list_grows note_id rest (links ++ [NoteTag.mk note_id tid]))
        as (added & E & _).
      rewrite E. apply in_or_app. left. apply in_or_app. right. now left.
  - destruct (existsb _ links); now apply IH.
Qed.

Lemma find_app_found {A} (p : A -> bool) (l extra : list A) (x : A) :
  find p l = Some x -> find p (l ++ extra) = Some x.
Proof.
  induction l as [|a l IH]; [discriminate|]. cbn [app find].
  destruct (p a); auto.
Qed.

Lemma intern_tag_id (name : string) (d : Database) (acc : list Z) :
  exists tid,
    snd (intern_tag name (d, acc)) = acc ++ [tid]
    /\ tag_id_by_name name (tags (fst (intern_tag name (d, acc)))) = Some tid.
Proof.
  unfold intern_tag, tag_id_by_name. destruct (existsb _ (tags d)) eqn:Ex.
  - destruct (find _ (tags d)) as [row|] eqn:F.
    + exists (Tag.id row). cbn [fst snd]. now rewrite F.
    + exfalso. apply existsb_exists in Ex as (t & Ht & E).
      rewrite (find_none _ _ F t Ht) in E. discriminate.
  - exists (seq_tags d + 1). cbn [fst snd tags set_seq_tags set_tags].
    split; [reflexivity|].
    rewrite find_last; [reflexivity| |apply String.eqb_refl].
    intros t Ht. destruct (String.eqb (Tag.name t) name) eqn:E; [|reflexivity].
    assert (existsb (fun t => String.eqb (Tag.name t) name) (tags d) = true) as X
        by (apply existsb_exists; now exists t).
    congruence.
Qed.

Lemma intern_from_ids (names : list string) :
  forall d acc,
  exists ids,
    snd (intern_from names (d, acc)) = acc ++ ids
    /\ Forall2 (fun name tid =>
                  tag_id_by_name name (tags (fst (intern_from names (d, acc))))
                  = Some tid) names ids.
Proof.
  induction names as [|name names IH]; intros d acc; cbn [intern_from fold_left].
  - exists []. split; [now rewrite app_nil_r|constructor].
  - fold (intern_from names (intern_tag name (d, acc))).
    destruct (intern_tag_id name d acc) as (tid & Es & Et).
    destruct (intern_tag name (d, acc)) as [d1 acc1]. cbn [fst snd] in Es, Et.
    subst acc1. destruct (IH d1 (acc ++ [tid])) as (ids & E & F).
    exists (tid :: ids). split; [now rewrite E, <- app_assoc|].
    constructor; [|exact F].
    destruct (intern_from_frame names (d1, acc ++ [tid]))
      as (_ & _ & (extra & Ex) & _).
    cbn [fst] in Ex. rewrite Ex. unfold tag_id_by_name in *.
    destruct (find _ (tags d1)) as [row|] eqn:Fd; [|discriminate].
    now rewrite (find_app_found _ _ extra row Fd).
Qed.

Lemma intern_from_present (names : list string) :
  forall d acc,
    (forall name, In name names ->
       existsb (fun t => String.eqb (Tag.name t) name) (tags d) = true) ->
    fst (intern_from names (d, acc)) = d.
Proof.
  induction names as [|name names IH]; intros d acc H; [reflexivity|].
  cbn [intern_from fold_left]. fold (intern_from names (intern_tag name (d, acc))).
  assert (exists acc', intern_tag name (d, acc) = (d, acc')) as (acc' & E).
  { unfold intern_tag. rewrite (H name (or_introl eq_refl)).
    destruct (find _ (tags d)); eexists; reflexivity. }
  rewrite E. apply IH. intros x Hx. apply H. now right.
Qed.

Lemma Forall2_same_function {A B} (f g : A -> option B) (l : list A)
    (l1 l2 : list B) :
  Forall2 (fun a b => f a = Some b) l l1 ->
  Forall2 (fun a b => g a = Some b) l l2 ->
  (forall a, In a l -> f a = g a) -> l1 = l2.
Proof.
  intros F. revert l2. induction F as [|a b l l1 E F IH]; intros l2 G H.
  - now inversion G.
  - inversion G as [|? b' ? l2' E' G']; subst. f_equal.
    + rewrite (H a (or_introl eq_refl)) in E. congruence.
    + apply IH; [exact G'|]. intros x Hx. apply H. now right.
Qed.

Lemma Forall2_right {A B} (R : A -> B -> Prop) (l : list A) (l' : list B) (b : B) :
  Forall2 R l l' -> In b l' -> exists a, In a l /\ R a b.
Proof.
  induction 1 as [|x y l l' Hxy F IH]; intros Hb; [contradiction|].
  destruct Hb as [<-|Hb].
  - exists x. split; [now left|exact Hxy].
  - destruct (IH Hb) as (a & Ha & Hr). exists a. split; [now right|exact Hr].
Qed.

Lemma Forall2_left {A B} (R : A -> B -> Prop) (l : list A) (l' : list B) (a : A) :
  Forall2 R l l' -> In a l -> exists b, In b l' /\ R a b.
Proof.
  induction 1 as [|x y l l' Hxy F IH]; intros Ha; [contradiction|].
  destruct Ha as [<-|Ha].
  - exists y. split; [now left|exact Hxy].
  - destruct (IH Ha) as (b & Hb & Hr). exists b. split; [now right|exact Hr].
Qed.

Lemma tag_id_by_name_found (name : string) (table : list Tag.t) (tid : Z) :
  tag_id_by_name name table = Some tid ->
  exists t, In t table /\ Tag.name t = name /\ Tag.id t = tid.
Proof.
  unfold tag_id_by_name. destruct (find _ table) as [t|] eqn:F; [|discriminate].
  intros [= <-]. apply find_some in F as [Ht E]. apply String.eqb_eq in E.
  now exists t.
Qed.
